(** * halui: the HAL user-interface bridge to the EMC task controller

    A shallow embedding of [halui.cc]: the NML channel set-up with its retry
    loops, the status poll, the two blocking waits, the machine on/off
    dispatchers, the linear unit conversion, the per-cycle pin scan and
    [main], followed by the properties established about them.

    C [int] is [Z] with the 32-bit wrap-around written out where the code
    does arithmetic on it; C [double] is the kernel's binary64 [float], so
    the loop counters accumulate exactly as they do in the program. *)

From Stdlib Require Import ZArith List Sorted Bool Lia String PrimFloat.
Import ListNotations.

Set Warnings "-inexact-float".

Local Open Scope Z_scope.

(** ** Machine integers *)

Definition INT_MAX : Z := 2147483647.
Definition INT_MIN : Z := -2147483648.

(** The value an [int] holds after an arithmetic result [z]. *)
Definition wrap32 (z : Z) : Z := (z + 2147483648) mod 4294967296 - 2147483648.

Definition in_int (z : Z) : Prop := INT_MIN <= z <= INT_MAX.

(** ** Data model *)

(** [hal_bit_t] (hal.h): a pin value, false when zero. *)
Definition hal_bit_t := Z.

Record halui_str := {
  machine_on : hal_bit_t;       (* pin for setting machine On *)
  machine_off : hal_bit_t;      (* pin for setting machine Off *)
  machine_is_on : hal_bit_t     (* pin for machine is On/Off *)
}.

(** Modelled from the spec: the completion state of the status snapshot,
    EXECUTING, DONE or ERROR (enum RCS_STATUS of rcs.hh, not part of these
    sources). *)
Inductive RCS_STATUS := RCS_DONE | RCS_EXEC | RCS_ERROR.

(** The task states of emc.hh; this file names only ON and OFF. *)
Inductive EMC_TASK_STATE_ENUM :=
| EMC_TASK_STATE_ON
| EMC_TASK_STATE_OFF
| EMC_TASK_STATE_OTHER.

Record EMC_TASK_STAT := {
  state : EMC_TASK_STATE_ENUM;
  programUnits : Z              (* a CANON_UNITS value *)
}.

Record EMC_TRAJ_STAT := { linearUnits : float }.

Record EMC_MOTION_STAT := { traj : EMC_TRAJ_STAT }.

Record EMC_STAT := {
  echo_serial_number : Z;
  status : RCS_STATUS;
  task : EMC_TASK_STAT;
  motion : EMC_MOTION_STAT
}.

(** The commands this file writes to the command channel. *)
Inductive NMLmsg :=
| EMC_TASK_SET_STATE (st : EMC_TASK_STATE_ENUM) (serial_number : Z)
| EMC_NULL (serial_number : Z).

Inductive chan_kind := CmdChan | StatChan | ErrChan.

Inductive print_dest := RCS_PRINT_TO_NULL | RCS_PRINT_TO_STDOUT.

(** What the process does to the outside, newest first in [trace]. *)
Inductive event :=
| EvNew (k : chan_kind)                 (* new RCS_CMD_CHANNEL / RCS_STAT_CHANNEL / NML *)
| EvDelete (k : chan_kind)              (* delete of a channel *)
| EvSleep (seconds : float)             (* esleep *)
| EvWrite (m : NMLmsg)                  (* emcCommandBuffer->write *)
| EvPrintDest (d : print_dest)          (* set_rcs_print_destination *)
| EvPrintError.                         (* rcs_print_error *)

Inductive wait_type := EMC_WAIT_NONE | EMC_WAIT_RECEIVED | EMC_WAIT_DONE.

Inductive linear_units :=
| LINEAR_UNITS_CUSTOM
| LINEAR_UNITS_AUTO
| LINEAR_UNITS_MM
| LINEAR_UNITS_INCH
| LINEAR_UNITS_CM.

(** A channel object, named by the count of constructions before it. *)
Definition channel := nat.

(** The globals of halui.cc, then the position in each stream of the
    environment and the trace of outside actions. *)
Record world := {
  emcCommandBuffer : option channel;
  emcStatusBuffer : option channel;
  emcStatus : option EMC_STAT;          (* what the pointer sees; None is 0 *)
  emcErrorBuffer : option channel;
  emcCommandSerialNumber : Z;
  saveEmcCommandSerialNumber : Z;
  emcTimeout : float;
  emcWaitType : wait_type;
  linearUnitConversion : linear_units;
  EMC_DEBUG : Z;
  halui_data : halui_str;
  old_halui_data : halui_str;
  n_cmd_new : nat;
  n_stat_new : nat;
  n_err_new : nat;
  n_poll : nat;
  n_cycle : nat;
  trace : list event
}.

Definition set_emcCommandBuffer (v : option channel) (w : world) : world :=
  {| emcCommandBuffer := v; emcStatusBuffer := emcStatusBuffer w;
     emcStatus := emcStatus w; emcErrorBuffer := emcErrorBuffer w;
     emcCommandSerialNumber := emcCommandSerialNumber w;
     saveEmcCommandSerialNumber := saveEmcCommandSerialNumber w;
     emcTimeout := emcTimeout w; emcWaitType := emcWaitType w;
     linearUnitConversion := linearUnitConversion w; EMC_DEBUG := EMC_DEBUG w;
     halui_data := halui_data w; old_halui_data := old_halui_data w;
     n_cmd_new := n_cmd_new w; n_stat_new := n_stat_new w;
     n_err_new := n_err_new w; n_poll := n_poll w; n_cycle := n_cycle w;
     trace := trace w |}.

Definition set_emcStatusBuffer (v : option channel) (w : world) : world :=
  {| emcCommandBuffer := emcCommandBuffer w; emcStatusBuffer := v;
     emcStatus := emcStatus w; emcErrorBuffer := emcErrorBuffer w;
     emcCommandSerialNumber := emcCommandSerialNumber w;
     saveEmcCommandSerialNumber := saveEmcCommandSerialNumber w;
     emcTimeout := emcTimeout w; emcWaitType := emcWaitType w;
     linearUnitConversion := linearUnitConversion w; EMC_DEBUG := EMC_DEBUG w;
     halui_data := halui_data w; old_halui_data := old_halui_data w;
     n_cmd_new := n_cmd_new w; n_stat_new := n_stat_new w;
     n_err_new := n_err_new w; n_poll := n_poll w; n_cycle := n_cycle w;
     trace := trace w |}.

Definition set_emcStatus (v : option EMC_STAT) (w : world) : world :=
  {| emcCommandBuffer := emcCommandBuffer w; emcStatusBuffer := emcStatusBuffer w;
     emcStatus := v; emcErrorBuffer := emcErrorBuffer w;
     emcCommandSerialNumber := emcCommandSerialNumber w;
     saveEmcCommandSerialNumber := saveEmcCommandSerialNumber w;
     emcTimeout := emcTimeout w; emcWaitType := emcWaitType w;
     linearUnitConversion := linearUnitConversion w; EMC_DEBUG := EMC_DEBUG w;
     halui_data := halui_data w; old_halui_data := old_halui_data w;
     n_cmd_new := n_cmd_new w; n_stat_new := n_stat_new w;
     n_err_new := n_err_new w; n_poll := n_poll w; n_cycle := n_cycle w;
     trace := trace w |}.

Definition set_emcErrorBuffer (v : option channel) (w : world) : world :=
  {| emcCommandBuffer := emcCommandBuffer w; emcStatusBuffer := emcStatusBuffer w;
     emcStatus := emcStatus w; emcErrorBuffer := v;
     emcCommandSerialNumber := emcCommandSerialNumber w;
     saveEmcCommandSerialNumber := saveEmcCommandSerialNumber w;
     emcTimeout := emcTimeout w; emcWaitType := emcWaitType w;
     linearUnitConversion := linearUnitConversion w; EMC_DEBUG := EMC_DEBUG w;
     halui_data := halui_data w; old_halui_data := old_halui_data w;
     n_cmd_new := n_cmd_new w; n_stat_new := n_stat_new w;
     n_err_new := n_err_new w; n_poll := n_poll w; n_cycle := n_cycle w;
     trace := trace w |}.

Definition set_emcCommandSerialNumber (v : Z) (w : world) : world :=
  {| emcCommandBuffer := emcCommandBuffer w; emcStatusBuffer := emcStatusBuffer w;
     emcStatus := emcStatus w; emcErrorBuffer := emcErrorBuffer w;
     emcCommandSerialNumber := v;
     saveEmcCommandSerialNumber := saveEmcCommandSerialNumber w;
     emcTimeout := emcTimeout w; emcWaitType := emcWaitType w;
     linearUnitConversion := linearUnitConversion w; EMC_DEBUG := EMC_DEBUG w;
     halui_data := halui_data w; old_halui_data := old_halui_data w;
     n_cmd_new := n_cmd_new w; n_stat_new := n_stat_new w;
     n_err_new := n_err_new w; n_poll := n_poll w; n_cycle := n_cycle w;
     trace := trace w |}.

Definition set_saveEmcCommandSerialNumber (v : Z) (w : world) : world :=
  {| emcCommandBuffer := emcCommandBuffer w; emcStatusBuffer := emcStatusBuffer w;
     emcStatus := emcStatus w; emcErrorBuffer := emcErrorBuffer w;
     emcCommandSerialNumber := emcCommandSerialNumber w;
     saveEmcCommandSerialNumber := v;
     emcTimeout := emcTimeout w; emcWaitType := emcWaitType w;
     linearUnitConversion := linearUnitConversion w; EMC_DEBUG := EMC_DEBUG w;
     halui_data := halui_data w; old_halui_data := old_halui_data w;
     n_cmd_new := n_cmd_new w; n_stat_new := n_stat_new w;
     n_err_new := n_err_new w; n_poll := n_poll w; n_cycle := n_cycle w;
     trace := trace w |}.

Definition set_emcTimeout (v : float) (w : world) : world :=
  {| emcCommandBuffer := emcCommandBuffer w; emcStatusBuffer := emcStatusBuffer w;
     emcStatus := emcStatus w; emcErrorBuffer := emcErrorBuffer w;
     emcCommandSerialNumber := emcCommandSerialNumber w;
     saveEmcCommandSerialNumber := saveEmcCommandSerialNumber w;
     emcTimeout := v; emcWaitType := emcWaitType w;
     linearUnitConversion := linearUnitConversion w; EMC_DEBUG := EMC_DEBUG w;
     halui_data := halui_data w; old_halui_data := old_halui_data w;
     n_cmd_new := n_cmd_new w; n_stat_new := n_stat_new w;
     n_err_new := n_err_new w; n_poll := n_poll w; n_cycle := n_cycle w;
     trace := trace w |}.

Definition set_emcWaitType (v : wait_type) (w : world) : world :=
  {| emcCommandBuffer := emcCommandBuffer w; emcStatusBuffer := emcStatusBuffer w;
     emcStatus := emcStatus w; emcErrorBuffer := emcErrorBuffer w;
     emcCommandSerialNumber := emcCommandSerialNumber w;
     saveEmcCommandSerialNumber := saveEmcCommandSerialNumber w;
     emcTimeout := emcTimeout w; emcWaitType := v;
     linearUnitConversion := linearUnitConversion w; EMC_DEBUG := EMC_DEBUG w;
     halui_data := halui_data w; old_halui_data := old_halui_data w;
     n_cmd_new := n_cmd_new w; n_stat_new := n_stat_new w;
     n_err_new := n_err_new w; n_poll := n_poll w; n_cycle := n_cycle w;
     trace := trace w |}.

Definition set_linearUnitConversion (v : linear_units) (w : world) : world :=
  {| emcCommandBuffer := emcCommandBuffer w; emcStatusBuffer := emcStatusBuffer w;
     emcStatus := emcStatus w; emcErrorBuffer := emcErrorBuffer w;
     emcCommandSerialNumber := emcCommandSerialNumber w;
     saveEmcCommandSerialNumber := saveEmcCommandSerialNumber w;
     emcTimeout := emcTimeout w; emcWaitType := emcWaitType w;
     linearUnitConversion := v; EMC_DEBUG := EMC_DEBUG w;
     halui_data := halui_data w; old_halui_data := old_halui_data w;
     n_cmd_new := n_cmd_new w; n_stat_new := n_stat_new w;
     n_err_new := n_err_new w; n_poll := n_poll w; n_cycle := n_cycle w;
     trace := trace w |}.

Definition set_EMC_DEBUG (v : Z) (w : world) : world :=
  {| emcCommandBuffer := emcCommandBuffer w; emcStatusBuffer := emcStatusBuffer w;
     emcStatus := emcStatus w; emcErrorBuffer := emcErrorBuffer w;
     emcCommandSerialNumber := emcCommandSerialNumber w;
     saveEmcCommandSerialNumber := saveEmcCommandSerialNumber w;
     emcTimeout := emcTimeout w; emcWaitType := emcWaitType w;
     linearUnitConversion := linearUnitConversion w; EMC_DEBUG := v;
     halui_data := halui_data w; old_halui_data := old_halui_data w;
     n_cmd_new := n_cmd_new w; n_stat_new := n_stat_new w;
     n_err_new := n_err_new w; n_poll := n_poll w; n_cycle := n_cycle w;
     trace := trace w |}.

Definition set_halui_data (v : halui_str) (w : world) : world :=
  {| emcCommandBuffer := emcCommandBuffer w; emcStatusBuffer := emcStatusBuffer w;
     emcStatus := emcStatus w; emcErrorBuffer := emcErrorBuffer w;
     emcCommandSerialNumber := emcCommandSerialNumber w;
     saveEmcCommandSerialNumber := saveEmcCommandSerialNumber w;
     emcTimeout := emcTimeout w; emcWaitType := emcWaitType w;
     linearUnitConversion := linearUnitConversion w; EMC_DEBUG := EMC_DEBUG w;
     halui_data := v; old_halui_data := old_halui_data w;
     n_cmd_new := n_cmd_new w; n_stat_new := n_stat_new w;
     n_err_new := n_err_new w; n_poll := n_poll w; n_cycle := n_cycle w;
     trace := trace w |}.

Definition set_old_halui_data (v : halui_str) (w : world) : world :=
  {| emcCommandBuffer := emcCommandBuffer w; emcStatusBuffer := emcStatusBuffer w;
     emcStatus := emcStatus w; emcErrorBuffer := emcErrorBuffer w;
     emcCommandSerialNumber := emcCommandSerialNumber w;
     saveEmcCommandSerialNumber := saveEmcCommandSerialNumber w;
     emcTimeout := emcTimeout w; emcWaitType := emcWaitType w;
     linearUnitConversion := linearUnitConversion w; EMC_DEBUG := EMC_DEBUG w;
     halui_data := halui_data w; old_halui_data := v;
     n_cmd_new := n_cmd_new w; n_stat_new := n_stat_new w;
     n_err_new := n_err_new w; n_poll := n_poll w; n_cycle := n_cycle w;
     trace := trace w |}.

Definition set_n_cmd_new (v : nat) (w : world) : world :=
  {| emcCommandBuffer := emcCommandBuffer w; emcStatusBuffer := emcStatusBuffer w;
     emcStatus := emcStatus w; emcErrorBuffer := emcErrorBuffer w;
     emcCommandSerialNumber := emcCommandSerialNumber w;
     saveEmcCommandSerialNumber := saveEmcCommandSerialNumber w;
     emcTimeout := emcTimeout w; emcWaitType := emcWaitType w;
     linearUnitConversion := linearUnitConversion w; EMC_DEBUG := EMC_DEBUG w;
     halui_data := halui_data w; old_halui_data := old_halui_data w;
     n_cmd_new := v; n_stat_new := n_stat_new w;
     n_err_new := n_err_new w; n_poll := n_poll w; n_cycle := n_cycle w;
     trace := trace w |}.

Definition set_n_stat_new (v : nat) (w : world) : world :=
  {| emcCommandBuffer := emcCommandBuffer w; emcStatusBuffer := emcStatusBuffer w;
     emcStatus := emcStatus w; emcErrorBuffer := emcErrorBuffer w;
     emcCommandSerialNumber := emcCommandSerialNumber w;
     saveEmcCommandSerialNumber := saveEmcCommandSerialNumber w;
     emcTimeout := emcTimeout w; emcWaitType := emcWaitType w;
     linearUnitConversion := linearUnitConversion w; EMC_DEBUG := EMC_DEBUG w;
     halui_data := halui_data w; old_halui_data := old_halui_data w;
     n_cmd_new := n_cmd_new w; n_stat_new := v;
     n_err_new := n_err_new w; n_poll := n_poll w; n_cycle := n_cycle w;
     trace := trace w |}.

Definition set_n_err_new (v : nat) (w : world) : world :=
  {| emcCommandBuffer := emcCommandBuffer w; emcStatusBuffer := emcStatusBuffer w;
     emcStatus := emcStatus w; emcErrorBuffer := emcErrorBuffer w;
     emcCommandSerialNumber := emcCommandSerialNumber w;
     saveEmcCommandSerialNumber := saveEmcCommandSerialNumber w;
     emcTimeout := emcTimeout w; emcWaitType := emcWaitType w;
     linearUnitConversion := linearUnitConversion w; EMC_DEBUG := EMC_DEBUG w;
     halui_data := halui_data w; old_halui_data := old_halui_data w;
     n_cmd_new := n_cmd_new w; n_stat_new := n_stat_new w;
     n_err_new := v; n_poll := n_poll w; n_cycle := n_cycle w;
     trace := trace w |}.

Definition set_n_poll (v : nat) (w : world) : world :=
  {| emcCommandBuffer := emcCommandBuffer w; emcStatusBuffer := emcStatusBuffer w;
     emcStatus := emcStatus w; emcErrorBuffer := emcErrorBuffer w;
     emcCommandSerialNumber := emcCommandSerialNumber w;
     saveEmcCommandSerialNumber := saveEmcCommandSerialNumber w;
     emcTimeout := emcTimeout w; emcWaitType := emcWaitType w;
     linearUnitConversion := linearUnitConversion w; EMC_DEBUG := EMC_DEBUG w;
     halui_data := halui_data w; old_halui_data := old_halui_data w;
     n_cmd_new := n_cmd_new w; n_stat_new := n_stat_new w;
     n_err_new := n_err_new w; n_poll := v; n_cycle := n_cycle w;
     trace := trace w |}.

Definition set_n_cycle (v : nat) (w : world) : world :=
  {| emcCommandBuffer := emcCommandBuffer w; emcStatusBuffer := emcStatusBuffer w;
     emcStatus := emcStatus w; emcErrorBuffer := emcErrorBuffer w;
     emcCommandSerialNumber := emcCommandSerialNumber w;
     saveEmcCommandSerialNumber := saveEmcCommandSerialNumber w;
     emcTimeout := emcTimeout w; emcWaitType := emcWaitType w;
     linearUnitConversion := linearUnitConversion w; EMC_DEBUG := EMC_DEBUG w;
     halui_data := halui_data w; old_halui_data := old_halui_data w;
     n_cmd_new := n_cmd_new w; n_stat_new := n_stat_new w;
     n_err_new := n_err_new w; n_poll := n_poll w; n_cycle := v;
     trace := trace w |}.

Definition set_trace (v : list event) (w : world) : world :=
  {| emcCommandBuffer := emcCommandBuffer w; emcStatusBuffer := emcStatusBuffer w;
     emcStatus := emcStatus w; emcErrorBuffer := emcErrorBuffer w;
     emcCommandSerialNumber := emcCommandSerialNumber w;
     saveEmcCommandSerialNumber := saveEmcCommandSerialNumber w;
     emcTimeout := emcTimeout w; emcWaitType := emcWaitType w;
     linearUnitConversion := linearUnitConversion w; EMC_DEBUG := EMC_DEBUG w;
     halui_data := halui_data w; old_halui_data := old_halui_data w;
     n_cmd_new := n_cmd_new w; n_stat_new := n_stat_new w;
     n_err_new := n_err_new w; n_poll := n_poll w; n_cycle := n_cycle w;
     trace := v |}.

(** ** What the sources leave to other files *)

(** Constants of headers that are not part of these sources. *)
Record externs := {
  EMC_STAT_TYPE : Z;            (* emc.hh: the NMLTYPE of EMC_STAT *)
  EMC_DEBUG_NML : Z;            (* emcglb.h: a bit of EMC_DEBUG *)
  CANON_UNITS_INCHES : Z;       (* canon.hh *)
  CANON_UNITS_MM : Z;
  CANON_UNITS_CM : Z;
  EMC_IO_CYCLE_TIME : float     (* emcglb.h *)
}.

(** What the compiler demands of them: the labels of one [switch] differ. *)
Definition externs_ok (X : externs) : bool :=
  negb (EMC_STAT_TYPE X =? -1) && negb (EMC_STAT_TYPE X =? 0)
  && negb (CANON_UNITS_MM X =? CANON_UNITS_INCHES X)
  && negb (CANON_UNITS_MM X =? CANON_UNITS_CM X)
  && negb (CANON_UNITS_INCHES X =? CANON_UNITS_CM X).

(** One look at the status channel: [valid()], the type [peek()] returns
    and what the status memory holds once [peek()] is back. *)
Record stat_obs := {
  so_valid : bool;
  so_peek : Z;
  so_data : EMC_STAT
}.

(** The outside of the process: the outcome of the n-th construction of
    each channel, of the n-th poll of the status channel, the input pins
    as cycle n finds them, the command line and the ini file. *)
Record environment := {
  cmd_new_valid : nat -> bool;
  stat_new : nat -> stat_obs;
  err_new_valid : nat -> bool;
  stat_poll : nat -> stat_obs;
  hal_in : nat -> hal_bit_t * hal_bit_t;  (* machine_on, machine_off *)
  args_ok : bool;                         (* emcGetArgs returned 0 *)
  ini_open : bool;                        (* inifile.open succeeded *)
  ini_EMC_DEBUG : option Z;               (* [EMC] DEBUG, found and scanned *)
  ini_LINEAR_UNITS : option string        (* [DISPLAY] LINEAR_UNITS *)
}.

(** ** The monad of the embedding *)

(** A call returns, or the process exits, or it dereferences a null
    pointer, or a loop is still turning when the fuel is spent. *)
Inductive outcome (A : Type) :=
| Ret (a : A) (w : world)
| Exit (code : Z) (w : world)
| Fault (w : world)
| Hang (w : world).

Arguments Ret {A} a w.
Arguments Exit {A} code w.
Arguments Fault {A} w.
Arguments Hang {A} w.

Definition M (A : Type) : Type := world -> outcome A.

Definition ret {A} (a : A) : M A := fun w => Ret a w.

Definition bind {A B} (m : M A) (k : A -> M B) : M B :=
  fun w =>
    match m w with
    | Ret a w' => k a w'
    | Exit c w' => Exit c w'
    | Fault w' => Fault w'
    | Hang w' => Hang w'
    end.

Notation "x <- m ;; k" := (bind m (fun x => k))
  (at level 61, m at next level, right associativity).
Notation "m ;;; k" := (bind m (fun _ => k))
  (at level 61, right associativity).

Definition gets {A} (f : world -> A) : M A := fun w => Ret (f w) w.
Definition modify (f : world -> world) : M unit := fun w => Ret tt (f w).
Definition exit {A} (code : Z) : M A := fun w => Exit code w.
Definition fault {A} : M A := fun w => Fault w.
Definition hang {A} : M A := fun w => Hang w.

Definition emit (e : event) : M unit :=
  modify (fun w => set_trace (e :: trace w) w).

(** The value a call returned, if it did. *)
Definition returned {A} (o : outcome A) : option A :=
  match o with Ret a _ => Some a | _ => None end.

(** The world an outcome leaves behind. *)
Definition final {A} (o : outcome A) : world :=
  match o with Ret _ w | Exit _ w | Fault w | Hang w => w end.

(** ** External calls *)

Definition esleep (seconds : float) : M unit := emit (EvSleep seconds).

Definition set_rcs_print_destination (d : print_dest) : M unit :=
  emit (EvPrintDest d).

Definition rcs_print_error : M unit := emit EvPrintError.

(** [emcStatus->...]: a null [emcStatus] faults. *)
Definition deref_emcStatus : M EMC_STAT :=
  p <- gets emcStatus ;;
  match p with
  | Some st => ret st
  | None => fault
  end.

(** [emcCommandBuffer->write(m)]. *)
Definition write (m : NMLmsg) : M unit :=
  p <- gets emcCommandBuffer ;;
  match p with
  | Some _ => emit (EvWrite m)
  | None => fault
  end.

Section Halui.

Variable X : externs.
Variable E : environment.

(** ** Unit conversion *)

Definition INCH_PER_MM : float := (1.0 / 25.4)%float.
Definition CM_PER_MM : float := 0.1%float.

Definition convertLinearUnits (u : float) : M float :=
  st <- deref_emcStatus ;;
  (* convert u to mm *)
  let in_mm := (u / linearUnits (traj (motion st)))%float in
  (* convert u to display units *)
  conv <- gets linearUnitConversion ;;
  match conv with
  | LINEAR_UNITS_MM => ret in_mm
  | LINEAR_UNITS_INCH => ret (in_mm * INCH_PER_MM)%float
  | LINEAR_UNITS_CM => ret (in_mm * CM_PER_MM)%float
  | LINEAR_UNITS_AUTO =>
      let pu := programUnits (task st) in
      if pu =? CANON_UNITS_MM X then ret in_mm
      else if pu =? CANON_UNITS_INCHES X then ret (in_mm * INCH_PER_MM)%float
      else if pu =? CANON_UNITS_CM X then ret (in_mm * CM_PER_MM)%float
      else ret u
  | LINEAR_UNITS_CUSTOM => ret u
  end.


(** ** Channel set-up *)

Definition new_RCS_CMD_CHANNEL : M (channel * bool) :=
  n <- gets n_cmd_new ;;
  modify (set_n_cmd_new (S n)) ;;;
  emit (EvNew CmdChan) ;;;
  ret (n, cmd_new_valid E n).

Definition new_RCS_STAT_CHANNEL : M (channel * stat_obs) :=
  n <- gets n_stat_new ;;
  modify (set_n_stat_new (S n)) ;;;
  emit (EvNew StatChan) ;;;
  ret (n, stat_new E n).

Definition new_NML : M (channel * bool) :=
  n <- gets n_err_new ;;
  modify (set_n_err_new (S n)) ;;;
  emit (EvNew ErrChan) ;;;
  ret (n, err_new_valid E n).

Definition delete (k : chan_kind) : M unit := emit (EvDelete k).

Definition emcTaskNmlGet : M Z :=
  let retval := 0 in
  (* try to connect to EMC cmd *)
  cb <- gets emcCommandBuffer ;;
  retval <-
    match cb with
    | None =>
        c <- new_RCS_CMD_CHANNEL ;;
        modify (set_emcCommandBuffer (Some (fst c))) ;;;
        if negb (snd c) then
          delete CmdChan ;;;
          modify (set_emcCommandBuffer None) ;;;
          ret (-1)
        else ret retval
    | Some _ => ret retval
    end ;;
  (* try to connect to EMC status *)
  sb <- gets emcStatusBuffer ;;
  match sb with
  | None =>
      c <- new_RCS_STAT_CHANNEL ;;
      modify (set_emcStatusBuffer (Some (fst c))) ;;;
      if negb (so_valid (snd c)) || negb (EMC_STAT_TYPE X =? so_peek (snd c)) then
        delete StatChan ;;;
        modify (set_emcStatusBuffer None) ;;;
        modify (set_emcStatus None) ;;;
        ret (-1)
      else
        modify (set_emcStatus (Some (so_data (snd c)))) ;;;
        ret retval
  | Some _ => ret retval
  end.

Definition emcErrorNmlGet : M Z :=
  let retval := 0 in
  eb <- gets emcErrorBuffer ;;
  match eb with
  | None =>
      c <- new_NML ;;
      modify (set_emcErrorBuffer (Some (fst c))) ;;;
      if negb (snd c) then
        delete ErrChan ;;;
        modify (set_emcErrorBuffer None) ;;;
        ret (-1)
      else ret retval
  | Some _ => ret retval
  end.

Definition RETRY_TIME : float := 10.0%float.     (* seconds to wait for subsystems to come up *)
Definition RETRY_INTERVAL : float := 1.0%float.  (* seconds between wait tries for a subsystem *)

(** [EMC_DEBUG & EMC_DEBUG_NML == 0]: [==] binds tighter than [&], so the
    test is [EMC_DEBUG & (EMC_DEBUG_NML == 0)]. *)
Definition debug_nml_test (w : world) : bool :=
  negb (Z.land (EMC_DEBUG w) (if EMC_DEBUG_NML X =? 0 then 1 else 0) =? 0).

(** The [do ... while (end > 0.0)] loop of [tryNml], which the function
    has twice, once around each getter; it yields [good]. *)
Fixpoint tryNml_loop (fuel : nat) (get : M Z) (end_ : float) : M bool :=
  match fuel with
  | O => hang
  | S fuel' =>
      r <- get ;;
      if 0 =? r then ret true
      else
        esleep RETRY_INTERVAL ;;;
        let end_ := (end_ - RETRY_INTERVAL)%float in
        if (0.0 <? end_)%float then tryNml_loop fuel' get end_ else ret false
  end.

Definition tryNml (fuel : nat) : M Z :=
  c <- gets debug_nml_test ;;
  (if c then set_rcs_print_destination RCS_PRINT_TO_NULL else ret tt) ;;;
  good <- tryNml_loop fuel emcTaskNmlGet RETRY_TIME ;;
  c <- gets debug_nml_test ;;
  (if c then set_rcs_print_destination RCS_PRINT_TO_STDOUT else ret tt) ;;;
  if negb good then ret (-1)
  else
    c <- gets debug_nml_test ;;
    (if c then set_rcs_print_destination RCS_PRINT_TO_NULL else ret tt) ;;;
    good <- tryNml_loop fuel emcErrorNmlGet RETRY_TIME ;;
    c <- gets debug_nml_test ;;
    (if c then set_rcs_print_destination RCS_PRINT_TO_STDOUT else ret tt) ;;;
    if negb good then ret (-1)
    else ret 0.

(** ** The status poll *)

(** The environment's next answer on the status channel. *)
Definition next_poll : M stat_obs :=
  n <- gets n_poll ;;
  modify (set_n_poll (S n)) ;;;
  ret (stat_poll E n).

Definition updateStatus : M Z :=
  st <- gets emcStatus ;;
  sb <- gets emcStatusBuffer ;;
  match st, sb with
  | Some _, Some _ =>
      o <- next_poll ;;
      if negb (so_valid o) then ret (-1)
      else
        (* peek() leaves the status memory as the transport has it *)
        modify (set_emcStatus (Some (so_data o))) ;;;
        let type := so_peek o in
        if type =? -1 then ret (-1)          (* error on CMS channel *)
        else if (type =? 0) || (type =? EMC_STAT_TYPE X) then ret 0
        else ret (-1)
  | _, _ => ret (-1)
  end.

(** ** The blocking waits *)

Definition EMC_COMMAND_DELAY : float := 0.1%float.  (* how long to sleep between checks *)

Definition rcs_status_eqb (a b : RCS_STATUS) : bool :=
  match a, b with
  | RCS_DONE, RCS_DONE | RCS_EXEC, RCS_EXEC | RCS_ERROR, RCS_ERROR => true
  | _, _ => false
  end.

(** [emcTimeout <= 0.0 || end < emcTimeout] *)
Definition wait_goes_on (end_ : float) (w : world) : bool :=
  (emcTimeout w <=? 0.0)%float || (end_ <? emcTimeout w)%float.

Fixpoint emcCommandWaitReceived_loop (fuel : nat) (serial_number : Z)
    (end_ : float) : M Z :=
  match fuel with
  | O => hang
  | S fuel' =>
      go <- gets (wait_goes_on end_) ;;
      if go then
        _ <- updateStatus ;;
        st <- deref_emcStatus ;;
        if echo_serial_number st =? serial_number then ret 0
        else
          esleep EMC_COMMAND_DELAY ;;;
          emcCommandWaitReceived_loop fuel' serial_number
            (end_ + EMC_COMMAND_DELAY)%float
      else ret (-1)
  end.

Definition emcCommandWaitReceived (fuel : nat) (serial_number : Z) : M Z :=
  emcCommandWaitReceived_loop fuel serial_number 0.0%float.

Fixpoint emcCommandWaitDone_loop (fuel : nat) (end_ : float) : M Z :=
  match fuel with
  | O => hang
  | S fuel' =>
      go <- gets (wait_goes_on end_) ;;
      if go then
        _ <- updateStatus ;;
        st <- deref_emcStatus ;;
        if rcs_status_eqb (status st) RCS_DONE then ret 0
        else
          st <- deref_emcStatus ;;
          if rcs_status_eqb (status st) RCS_ERROR then ret (-1)
          else
            esleep EMC_COMMAND_DELAY ;;;
            emcCommandWaitDone_loop fuel' (end_ + EMC_COMMAND_DELAY)%float
      else ret (-1)
  end.

Definition emcCommandWaitDone (fuel : nat) (serial_number : Z) : M Z :=
  (* first get it there *)
  r <- emcCommandWaitReceived fuel serial_number ;;
  if negb (0 =? r) then ret (-1)
  else
    (* now wait until it, or subsequent command (e.g., abort) is done *)
    emcCommandWaitDone_loop fuel 0.0%float.

Definition thisQuit (fuel : nat) : M unit :=
  sb <- gets emcStatusBuffer ;;
  match sb with
  | Some _ =>
      (* wait until current message has been received *)
      s <- gets emcCommandSerialNumber ;;
      _ <- emcCommandWaitReceived fuel s ;;
      ret tt
  | None => ret tt
  end ;;;
  cb <- gets emcCommandBuffer ;;
  match cb with
  | Some _ =>
      (* send null message to reset serial number to original *)
      s <- gets saveEmcCommandSerialNumber ;;
      write (EMC_NULL s)
  | None => ret tt
  end ;;;
  (* clean up NML buffers *)
  eb <- gets emcErrorBuffer ;;
  match eb with
  | Some _ => delete ErrChan ;;; modify (set_emcErrorBuffer None)
  | None => ret tt
  end ;;;
  sb <- gets emcStatusBuffer ;;
  match sb with
  | Some _ =>
      delete StatChan ;;;
      modify (set_emcStatusBuffer None) ;;;
      modify (set_emcStatus None)
  | None => ret tt
  end ;;;
  cb <- gets emcCommandBuffer ;;
  match cb with
  | Some _ => delete CmdChan ;;; modify (set_emcCommandBuffer None)
  | None => ret tt
  end ;;;
  exit 0.

(** ** Dispatch *)

Definition sendMachineOn (fuel : nat) : M Z :=
  n <- gets emcCommandSerialNumber ;;
  modify (set_emcCommandSerialNumber (wrap32 (n + 1))) ;;;
  s <- gets emcCommandSerialNumber ;;
  write (EMC_TASK_SET_STATE EMC_TASK_STATE_ON s) ;;;
  wt <- gets emcWaitType ;;
  match wt with
  | EMC_WAIT_RECEIVED =>
      s <- gets emcCommandSerialNumber ;;
      emcCommandWaitReceived fuel s
  | EMC_WAIT_DONE =>
      s <- gets emcCommandSerialNumber ;;
      emcCommandWaitDone fuel s
  | EMC_WAIT_NONE => ret 0
  end.

Definition sendMachineOff (fuel : nat) : M Z :=
  n <- gets emcCommandSerialNumber ;;
  modify (set_emcCommandSerialNumber (wrap32 (n + 1))) ;;;
  s <- gets emcCommandSerialNumber ;;
  write (EMC_TASK_SET_STATE EMC_TASK_STATE_OFF s) ;;;
  wt <- gets emcWaitType ;;
  match wt with
  | EMC_WAIT_RECEIVED =>
      s <- gets emcCommandSerialNumber ;;
      emcCommandWaitReceived fuel s
  | EMC_WAIT_DONE =>
      s <- gets emcCommandSerialNumber ;;
      emcCommandWaitDone fuel s
  | EMC_WAIT_NONE => ret 0
  end.

(** ** Configuration *)

Local Open Scope string_scope.

(** [iniLoad], as far as the functions above read what it sets: the debug
    mask and the linear display units. *)
Definition iniLoad : M Z :=
  (* open it *)
  if negb (ini_open E) then ret (-1)
  else
    match ini_EMC_DEBUG E with
    | Some d => modify (set_EMC_DEBUG d)        (* copy to global *)
    | None => modify (set_EMC_DEBUG 0)          (* not found, use default *)
    end ;;;
    match ini_LINEAR_UNITS E with
    | Some inistring =>
        if String.eqb inistring "AUTO" then
          modify (set_linearUnitConversion LINEAR_UNITS_AUTO)
        else if String.eqb inistring "INCH" then
          modify (set_linearUnitConversion LINEAR_UNITS_INCH)
        else if String.eqb inistring "MM" then
          modify (set_linearUnitConversion LINEAR_UNITS_MM)
        else if String.eqb inistring "CM" then
          modify (set_linearUnitConversion LINEAR_UNITS_CM)
        else ret tt
    | None => ret tt                            (* not found, leave default alone *)
    end ;;;
    ret 0.

Local Close Scope string_scope.

(** ** The pin scan *)

Definition with_machine_on (v : hal_bit_t) (d : halui_str) : halui_str :=
  {| machine_on := v; machine_off := machine_off d;
     machine_is_on := machine_is_on d |}.

Definition with_machine_off (v : hal_bit_t) (d : halui_str) : halui_str :=
  {| machine_on := machine_on d; machine_off := v;
     machine_is_on := machine_is_on d |}.

Definition with_machine_is_on (v : hal_bit_t) (d : halui_str) : halui_str :=
  {| machine_on := machine_on d; machine_off := machine_off d;
     machine_is_on := v |}.

(** [*(halui_data->pin)] and [old_halui_data.pin]. *)
Definition pin (f : halui_str -> hal_bit_t) : M hal_bit_t :=
  gets (fun w => f (halui_data w)).
Definition old_pin (f : halui_str -> hal_bit_t) : M hal_bit_t :=
  gets (fun w => f (old_halui_data w)).

Definition hal_init_pins : M unit :=
  modify (fun w => set_halui_data (with_machine_on 0 (halui_data w)) w) ;;;
  modify (fun w => set_old_halui_data (with_machine_on 0 (old_halui_data w)) w) ;;;
  modify (fun w => set_halui_data (with_machine_off 0 (halui_data w)) w) ;;;
  modify (fun w => set_old_halui_data (with_machine_off 0 (old_halui_data w)) w).

(** this function looks if any of the hal pins has changed
    and sends appropiate messages if so *)
Definition check_hal_changes (fuel : nat) : M unit :=
  p <- pin machine_on ;;
  o <- old_pin machine_on ;;
  (if negb (p =? o) then
     p <- pin machine_on ;;
     (if negb (p =? 0) then _ <- sendMachineOn fuel ;; ret tt else ret tt) ;;;
     p <- pin machine_on ;;
     modify (fun w => set_old_halui_data (with_machine_on p (old_halui_data w)) w)
   else ret tt) ;;;
  p <- pin machine_off ;;
  o <- old_pin machine_off ;;
  (if negb (p =? o) then
     p <- pin machine_off ;;
     (if negb (p =? 0) then _ <- sendMachineOff fuel ;; ret tt else ret tt) ;;;
     p <- pin machine_off ;;
     modify (fun w => set_old_halui_data (with_machine_off p (old_halui_data w)) w)
   else ret tt).

(** this function looks at the received NML status message
    and modifies the appropiate HAL pins *)
Definition modify_hal_pins : M unit :=
  st <- deref_emcStatus ;;
  match state (task st) with
  | EMC_TASK_STATE_ON =>
      modify (fun w => set_halui_data (with_machine_is_on 1 (halui_data w)) w)
  | _ =>
      modify (fun w => set_halui_data (with_machine_is_on 0 (halui_data w)) w)
  end.

(** ** The main loop *)

(** The input pins live in HAL memory that other components write: cycle
    n finds them as [hal_in E n] has them. *)
Definition hal_sample : M unit :=
  n <- gets n_cycle ;;
  modify (set_n_cycle (S n)) ;;;
  modify (fun w =>
    set_halui_data
      (with_machine_on (fst (hal_in E n))
         (with_machine_off (snd (hal_in E n)) (halui_data w))) w).

(** One turn of [while (!done)]. *)
Definition cycle (fuel : nat) : M unit :=
  hal_sample ;;;
  check_hal_changes fuel ;;;     (* if anything changed send NML messages *)
  modify_hal_pins ;;;            (* if status changed modify HAL too *)
  esleep (EMC_IO_CYCLE_TIME X) ;;;  (* sleep for a while *)
  _ <- updateStatus ;;
  ret tt.

Fixpoint cycles (fuel : nat) (n : nat) : M unit :=
  match n with
  | O => ret tt
  | S n' => cycle fuel ;;; cycles fuel n'
  end.

(** [done] is never set: after [n] turns the loop is still turning. *)
Definition main_loop (fuel : nat) (n : nat) : M unit :=
  cycles fuel n ;;; hang.

(** [main]; the export of the pins ([halui_hal_init]) is left to HAL. *)
Definition main (fuel : nat) (n : nat) : M Z :=
  (* process command line args *)
  (if negb (args_ok E) then rcs_print_error ;;; exit 1 else ret tt) ;;;
  (* get configuration information *)
  _ <- iniLoad ;;
  (* init NML *)
  r <- tryNml fuel ;;
  (if negb (0 =? r) then
     rcs_print_error ;;;
     thisQuit fuel ;;;
     exit 1
   else ret tt) ;;;
  (* initialize safe values *)
  hal_init_pins ;;;
  (* get current serial number, and save it for restoring when we quit
     so as not to interfere with real operator interface *)
  _ <- updateStatus ;;
  st <- deref_emcStatus ;;
  modify (set_emcCommandSerialNumber (echo_serial_number st)) ;;;
  st <- deref_emcStatus ;;
  modify (set_saveEmcCommandSerialNumber (echo_serial_number st)) ;;;
  main_loop fuel n ;;;
  thisQuit fuel ;;;
  ret 0.

End Halui.

(** The process as the loader starts it: the static initialisers. *)
Definition initial_world : world :=
  {| emcCommandBuffer := None; emcStatusBuffer := None;
     emcStatus := None; emcErrorBuffer := None;
     emcCommandSerialNumber := 0;
     saveEmcCommandSerialNumber := 0;
     emcTimeout := 0.0%float;        (* 0 means wait forever *)
     emcWaitType := EMC_WAIT_DONE;
     linearUnitConversion := LINEAR_UNITS_AUTO; EMC_DEBUG := 0;
     halui_data := {| machine_on := 0; machine_off := 0; machine_is_on := 0 |};
     old_halui_data := {| machine_on := 0; machine_off := 0; machine_is_on := 0 |};
     n_cmd_new := 0; n_stat_new := 0;
     n_err_new := 0; n_poll := 0; n_cycle := 0;
     trace := [] |}.

(** ** Reading the trace *)

(** The commands written to the command channel, newest first. *)
Fixpoint written (t : list event) : list NMLmsg :=
  match t with
  | [] => []
  | EvWrite m :: t' => m :: written t'
  | _ :: t' => written t'
  end.

(** The serial numbers [sendMachineOn] and [sendMachineOff] gave out,
    newest first. *)
Fixpoint assigned (ms : list NMLmsg) : list Z :=
  match ms with
  | [] => []
  | EMC_TASK_SET_STATE _ s :: ms' => s :: assigned ms'
  | EMC_NULL _ :: ms' => assigned ms'
  end.

Definition is_set_state (st : EMC_TASK_STATE_ENUM) (m : NMLmsg) : bool :=
  match m, st with
  | EMC_TASK_SET_STATE EMC_TASK_STATE_ON _, EMC_TASK_STATE_ON => true
  | EMC_TASK_SET_STATE EMC_TASK_STATE_OFF _, EMC_TASK_STATE_OFF => true
  | _, _ => false
  end.

(** How often the command mapped to a pin was dispatched so far. *)
Definition dispatched (st : EMC_TASK_STATE_ENUM) (w : world) : nat :=
  List.length (filter (is_set_state st) (written (trace w))).

(** The sleeps so far, newest first, each with its length in seconds. *)
Fixpoint sleeps (t : list event) : list float :=
  match t with
  | [] => []
  | EvSleep d :: t' => d :: sleeps t'
  | _ :: t' => sleeps t'
  end.

(** The calls of [set_rcs_print_destination] so far, newest first. *)
Fixpoint print_dests (t : list event) : list print_dest :=
  match t with
  | [] => []
  | EvPrintDest d :: t' => d :: print_dests t'
  | _ :: t' => print_dests t'
  end.

(** The channels constructed so far, newest first. *)
Fixpoint constructed (t : list event) : list chan_kind :=
  match t with
  | [] => []
  | EvNew k :: t' => k :: constructed t'
  | _ :: t' => constructed t'
  end.

(** ** Vocabulary of the statements *)

Section Observations.

Variable X : externs.
Variable E : environment.

(** The world right after one more poll of the status channel. *)
Definition polled (w : world) : world := final (updateStatus X E w).

(** The world after one fruitless turn of a wait loop: poll, then sleep. *)
Definition poll_step (w : world) : world :=
  final (esleep EMC_COMMAND_DELAY (polled w)).

Definition after_polls (k : nat) (w : world) : world := Nat.iter k poll_step w.

(** The loop variable [end] after [k] turns. *)
Definition add_delay (e : float) : float := (e + EMC_COMMAND_DELAY)%float.

Definition end_after (k : nat) : float := Nat.iter k add_delay 0.0%float.

(** The status channel is connected: [emcStatus] is not null. *)
Definition has_status (w : world) : bool :=
  match emcStatus w with Some _ => true | None => false end.

Definition echo_is (s : Z) (w : world) : bool :=
  match emcStatus w with
  | Some st => echo_serial_number st =? s
  | None => false
  end.

Definition status_is (r : RCS_STATUS) (w : world) : bool :=
  match emcStatus w with
  | Some st => rcs_status_eqb (status st) r
  | None => false
  end.

(** One attempt of [tryNml]'s first loop that failed: the getter, then
    the sleep. *)
Definition attempt_step (w : world) : world :=
  final (esleep RETRY_INTERVAL (final (emcTaskNmlGet X E w))).

(** [if (EMC_DEBUG & EMC_DEBUG_NML == 0) set_rcs_print_destination(d)]. *)
Definition diag_to (d : print_dest) (w : world) : world :=
  if debug_nml_test X w then final (set_rcs_print_destination d w) else w.

(** The next [n] calls of [emcTaskNmlGet] all fail. *)
Fixpoint attempts_fail (n : nat) (w : world) : bool :=
  match n with
  | O => true
  | S n' =>
      match returned (emcTaskNmlGet X E w) with
      | Some r => negb (0 =? r) && attempts_fail n' (attempt_step w)
      | None => false
      end
  end.

End Observations.


(** What a poll, a sleep and hence a wait leave alone: every global but
    the snapshot, and the commands written so far. *)
Record frame (w w' : world) : Prop := {
  fr_cmd : emcCommandBuffer w' = emcCommandBuffer w;
  fr_statbuf : emcStatusBuffer w' = emcStatusBuffer w;
  fr_err : emcErrorBuffer w' = emcErrorBuffer w;
  fr_serial : emcCommandSerialNumber w' = emcCommandSerialNumber w;
  fr_save : saveEmcCommandSerialNumber w' = saveEmcCommandSerialNumber w;
  fr_timeout : emcTimeout w' = emcTimeout w;
  fr_wait : emcWaitType w' = emcWaitType w;
  fr_conv : linearUnitConversion w' = linearUnitConversion w;
  fr_debug : EMC_DEBUG w' = EMC_DEBUG w;
  fr_pins : halui_data w' = halui_data w;
  fr_old : old_halui_data w' = old_halui_data w;
  fr_cycle : n_cycle w' = n_cycle w;
  fr_written : written (trace w') = written (trace w);
  fr_status : emcStatus w <> None -> emcStatus w' <> None
}.

(** The world right after [sendMachineOn] or [sendMachineOff] has written
    its command: the counter stepped, the command in the trace. *)
Definition after_write (st : EMC_TASK_STATE_ENUM) (w : world) : world :=
  let w1 := set_emcCommandSerialNumber (wrap32 (emcCommandSerialNumber w + 1)) w in
  set_trace (EvWrite (EMC_TASK_SET_STATE st (emcCommandSerialNumber w1)) :: trace w1) w1.

(** The serial numbers given out so far, oldest first. *)
Definition assigned_in_order (w : world) : list Z :=
  rev (assigned (written (trace w))).

(** The [m] serial numbers that follow the counter value [s0]. *)
Definition next_serials (s0 : Z) (m : nat) : list Z :=
  map (fun i => wrap32 (s0 + Z.of_nat i)) (seq 1 m).

(** From [w] to [w'] the process gave out the next [m] serial numbers and
    kept its command channel. *)
Definition grows (w w' : world) : Prop :=
  emcCommandBuffer w <> None ->
  in_int (emcCommandSerialNumber w) ->
  emcCommandBuffer w' <> None /\
  in_int (emcCommandSerialNumber w') /\
  exists m : nat,
    assigned_in_order w' = assigned_in_order w ++ next_serials (emcCommandSerialNumber w) m /\
    emcCommandSerialNumber w' = wrap32 (emcCommandSerialNumber w + Z.of_nat m).


(** [check_hal_changes] is one scan per input pin, one after the other. *)
Definition scan_machine_on (X : externs) (E : environment) (fuel : nat) : M unit :=
  p <- pin machine_on ;;
  o <- old_pin machine_on ;;
  (if negb (p =? o) then
     p <- pin machine_on ;;
     (if negb (p =? 0) then _ <- sendMachineOn X E fuel ;; ret tt else ret tt) ;;;
     p <- pin machine_on ;;
     modify (fun w => set_old_halui_data (with_machine_on p (old_halui_data w)) w)
   else ret tt).

Definition scan_machine_off (X : externs) (E : environment) (fuel : nat) : M unit :=
  p <- pin machine_off ;;
  o <- old_pin machine_off ;;
  (if negb (p =? o) then
     p <- pin machine_off ;;
     (if negb (p =? 0) then _ <- sendMachineOff X E fuel ;; ret tt else ret tt) ;;;
     p <- pin machine_off ;;
     modify (fun w => set_old_halui_data (with_machine_off p (old_halui_data w)) w)
   else ret tt).

(** What leaves the counter, the command channel and the commands written
    alone. *)
Definition quiet (w w' : world) : Prop :=
  emcCommandBuffer w' = emcCommandBuffer w /\
  emcCommandSerialNumber w' = emcCommandSerialNumber w /\
  written (trace w') = written (trace w).


(** What a connection attempt and a sleep leave alone. *)
Definition probing (w w' : world) : Prop :=
  EMC_DEBUG w' = EMC_DEBUG w /\
  print_dests (trace w') = print_dests (trace w) /\
  written (trace w') = written (trace w).

(** The loop variable [end] of [tryNml] after one more turn. *)
Definition sub_interval (e : float) : float := (e - RETRY_INTERVAL)%float.

(** ** Sample data *)

Definition sample_externs : externs :=
  {| EMC_STAT_TYPE := 1999; EMC_DEBUG_NML := 64;
     CANON_UNITS_INCHES := 1; CANON_UNITS_MM := 2; CANON_UNITS_CM := 3;
     EMC_IO_CYCLE_TIME := 0.1%float |}.

Definition sample_stat (echo : Z) (st : RCS_STATUS) (units : Z) : EMC_STAT :=
  {| echo_serial_number := echo; status := st;
     task := {| state := EMC_TASK_STATE_OFF; programUnits := units |};
     motion := {| traj := {| linearUnits := 25.4%float |} |} |}.

(** A process whose three channels are up and whose snapshot is [st]. *)
Definition connected_world (st : EMC_STAT) : world :=
  set_emcStatus (Some st)
    (set_emcStatusBuffer (Some O)
       (set_emcCommandBuffer (Some O)
          (set_emcErrorBuffer (Some O) initial_world))).

(** An environment in which every channel comes up, the status channel
    answers poll n with [polls n] and the pins are as [pins] has them. *)
Definition sample_env (polls : nat -> stat_obs) (pins : nat -> hal_bit_t * hal_bit_t)
  : environment :=
  {| cmd_new_valid := fun _ => true;
     stat_new := fun _ =>
       {| so_valid := true; so_peek := 1999; so_data := so_data (polls O) |};
     err_new_valid := fun _ => true;
     stat_poll := polls;
     hal_in := pins;
     args_ok := true; ini_open := true;
     ini_EMC_DEBUG := None; ini_LINEAR_UNITS := None |}.

(** An environment in which no channel ever comes up. *)
Definition dead_env : environment :=
  {| cmd_new_valid := fun _ => false;
     stat_new := fun _ =>
       {| so_valid := false; so_peek := 0; so_data := sample_stat 0 RCS_DONE 1 |};
     err_new_valid := fun _ => false;
     stat_poll := fun _ =>
       {| so_valid := false; so_peek := 0; so_data := sample_stat 0 RCS_DONE 1 |};
     hal_in := fun _ => (0, 0);
     args_ok := true; ini_open := true;
     ini_EMC_DEBUG := None; ini_LINEAR_UNITS := None |}.

Definition no_data (st : EMC_STAT) : stat_obs :=
  {| so_valid := true; so_peek := 0; so_data := st |}.
Definition new_data (st : EMC_STAT) : stat_obs :=
  {| so_valid := true; so_peek := 1999; so_data := st |}.

(** Two polls without new data, then the echo of serial 5 while the
    command executes, then its failure. *)
Definition polls_ack5_error (n : nat) : stat_obs :=
  match n with
  | 0%nat | 1%nat => no_data (sample_stat 4 RCS_DONE 1)
  | 2%nat => new_data (sample_stat 5 RCS_EXEC 1)
  | 3%nat => no_data (sample_stat 5 RCS_EXEC 1)
  | _ => new_data (sample_stat 5 RCS_ERROR 1)
  end.

(** A status channel that has gone invalid: every poll fails. *)
Definition polls_invalid (n : nat) : stat_obs :=
  {| so_valid := false; so_peek := 0; so_data := sample_stat 5 RCS_DONE 1 |}.

(** The machine-on pin goes up before the first cycle and stays up. *)
Definition pins_on_held (n : nat) : hal_bit_t * hal_bit_t := (1, 0).

(** Both pins go up before the first cycle. *)
Definition pins_both (n : nat) : hal_bit_t * hal_bit_t := (1, 1).

(** The task echoes 2147483646 at start-up, then acknowledges and
    completes the next two commands one after the other. *)
Definition polls_near_INT_MAX (n : nat) : stat_obs :=
  match n with
  | 0%nat => new_data (sample_stat 2147483646 RCS_DONE 1)
  | 1%nat => new_data (sample_stat 2147483647 RCS_EXEC 1)
  | 2%nat => new_data (sample_stat 2147483647 RCS_DONE 1)
  | 3%nat => new_data (sample_stat (-2147483648) RCS_EXEC 1)
  | _ => new_data (sample_stat (-2147483648) RCS_DONE 1)
  end.

(** Connected, with the counter at 4 as the snapshot echoes it. *)
Definition world_serial4 : world :=
  set_emcCommandSerialNumber 4 (connected_world (sample_stat 4 RCS_DONE 1)).

(** The status channel comes up and echoes 7; the command channel never
    does. *)
Definition no_command_env : environment :=
  {| cmd_new_valid := fun _ => false;
     stat_new := fun _ => new_data (sample_stat 7 RCS_DONE 1);
     err_new_valid := fun _ => true;
     stat_poll := fun _ => no_data (sample_stat 7 RCS_DONE 1);
     hal_in := fun _ => (0, 0);
     args_ok := true; ini_open := true;
     ini_EMC_DEBUG := None; ini_LINEAR_UNITS := None |}.

Definition no_pins (n : nat) : hal_bit_t * hal_bit_t := (0, 0).

(** ** Exporting the pins *)

Inductive hal_dir := HAL_RD | HAL_WR.

(** The calls [halui_hal_init] makes into HAL and RTAPI, oldest first. *)
Inductive hal_call :=
| HalInit (name : string)                                  (* hal_init *)
| HalMalloc                                                (* hal_malloc *)
| HalPinBitNew (name : string) (dir : hal_dir) (comp : Z)  (* hal_pin_bit_new *)
| HalExit (comp : Z)                                       (* hal_exit *)
| HalPrintErr.                                             (* rtapi_print_msg(RTAPI_MSG_ERR, ...) *)

(** What HAL answers: the component id of [hal_init], whether
    [hal_malloc] gave memory, the result of [hal_pin_bit_new] by pin
    name; HAL_SUCCESS is a constant of hal.h. *)
Record hal_env := {
  HAL_SUCCESS : Z;
  hal_init_ret : Z;
  hal_malloc_ok : bool;
  hal_pin_bit_new_ret : string -> Z
}.

(** The globals [halui_hal_init] sets, and its calls. *)
Record hal_state := {
  comp_id : Z;                  (* component ID *)
  halui_data_set : bool;        (* halui_data is not null *)
  hal_calls : list hal_call
}.

Definition halui_hal_init (H : hal_env) : Z * hal_state :=
  (* STEP 1: initialise the hal component *)
  let cid := hal_init_ret H in  (* comp_id *)
  let calls := [HalInit "halui"%string] in
  if (cid <? 0)%Z then
    ((-1)%Z, {| comp_id := cid; halui_data_set := false;
            hal_calls := calls ++ [HalPrintErr] |})
  else
    (* STEP 2: allocate shared memory for halui data *)
    let calls := calls ++ [HalMalloc] in
    if negb (hal_malloc_ok H) then
      ((-1)%Z, {| comp_id := cid; halui_data_set := false;
              hal_calls := calls ++ [HalPrintErr; HalExit cid] |})
    else
      (* STEP 3a: export the out-pin(s) *)
      let name := "halui.machine.is-on"%string in
      let retval := hal_pin_bit_new_ret H name in
      let calls := calls ++ [HalPinBitNew name HAL_WR cid] in
      if negb (retval =? HAL_SUCCESS H)%Z then
        ((-1)%Z, {| comp_id := cid; halui_data_set := true;
                hal_calls := calls ++ [HalPrintErr; HalExit cid] |})
      else
        (* STEP 3b: export the in-pin(s) *)
        let name := "halui.machine.on"%string in
        let retval := hal_pin_bit_new_ret H name in
        let calls := calls ++ [HalPinBitNew name HAL_RD cid] in
        if negb (retval =? HAL_SUCCESS H)%Z then
          ((-1)%Z, {| comp_id := cid; halui_data_set := true;
                  hal_calls := calls ++ [HalPrintErr; HalExit cid] |})
        else
          let name := "halui.machine.off"%string in
          let retval := hal_pin_bit_new_ret H name in
          let calls := calls ++ [HalPinBitNew name HAL_RD cid] in
          if negb (retval =? HAL_SUCCESS H)%Z then
            ((-1)%Z, {| comp_id := cid; halui_data_set := true;
                    hal_calls := calls ++ [HalPrintErr; HalExit cid] |})
          else
            (0%Z, {| comp_id := cid; halui_data_set := true;
                   hal_calls := calls |}).

Definition is_hal_exit (c : hal_call) : bool :=
  match c with HalExit _ => true | _ => false end.

Definition is_pin_new (c : hal_call) : bool :=
  match c with HalPinBitNew _ _ _ => true | _ => false end.

(** ** Further vocabulary *)

(** [emcStatus] is null exactly when [emcStatusBuffer] is: the two are
    set together. *)
Definition status_linked (w : world) : Prop :=
  emcStatusBuffer w = None <-> emcStatus w = None.

(** Both task channels are up. *)
Definition task_up (w : world) : bool :=
  match emcCommandBuffer w, emcStatusBuffer w with
  | Some _, Some _ => true
  | _, _ => false
  end.

(** A computation that never calls [exit]. *)
Definition never_exits {A : Type} (m : M A) : Prop :=
  forall (w w' : world) (c : Z), m w <> Exit c w'.

(** A computation that never returns to its caller. *)
Definition never_returns {A : Type} (m : M A) : Prop :=
  forall (w w' : world) (a : A), m w <> Ret a w'.

(** The channels deleted so far, newest first. *)
Fixpoint deleted (t : list event) : list chan_kind :=
  match t with
  | [] => []
  | EvDelete k :: t' => k :: deleted t'
  | _ :: t' => deleted t'
  end.

Definition up_list {A : Type} (p : option A) (k : chan_kind) : list chan_kind :=
  match p with Some _ => [k] | None => [] end.

(** The task answers serial 5 with one poll of delay and then completes it. *)
Definition polls_ack5_done (n : nat) : stat_obs :=
  match n with
  | 0%nat => no_data (sample_stat 4 RCS_DONE 1)
  | 1%nat => new_data (sample_stat 5 RCS_EXEC 1)
  | _ => new_data (sample_stat 5 RCS_DONE 1)
  end.

(** The task acknowledges serial 5 and then stays busy with it. *)
Definition polls_ack5_busy (n : nat) : stat_obs :=
  match n with
  | 0%nat | 1%nat => no_data (sample_stat 4 RCS_DONE 1)
  | _ => new_data (sample_stat 5 RCS_EXEC 1)
  end.

(** The task acknowledges and completes serials 5 and 6 at once. *)
Definition polls_ack_5_6 (n : nat) : stat_obs :=
  match n with
  | 0%nat => new_data (sample_stat 5 RCS_EXEC 1)
  | 1%nat => new_data (sample_stat 5 RCS_DONE 1)
  | 2%nat => new_data (sample_stat 6 RCS_EXEC 1)
  | _ => new_data (sample_stat 6 RCS_DONE 1)
  end.

(** The task echoes 7 and reports it done. *)
Definition polls_echo7 (n : nat) : stat_obs :=
  new_data (sample_stat 7 RCS_DONE 1).

(** Connected, the counter at 7, the serial number found at start-up 3. *)
Definition world_quit : world :=
  set_saveEmcCommandSerialNumber 3
    (set_emcCommandSerialNumber 7 (connected_world (sample_stat 7 RCS_DONE 1))).

(** Connected, the counter at 4, both input pins up, both shadows down. *)
Definition world_both_up : world :=
  set_halui_data {| machine_on := 1; machine_off := 1; machine_is_on := 0 |}
    world_serial4.

(** An environment read through its ini file only. *)
Definition ini_env (units : option string) (debug : option Z) (opens : bool)
  : environment :=
  {| cmd_new_valid := fun _ => true;
     stat_new := fun _ => new_data (sample_stat 0 RCS_DONE 1);
     err_new_valid := fun _ => true;
     stat_poll := fun _ => no_data (sample_stat 0 RCS_DONE 1);
     hal_in := fun _ => (0, 0);
     args_ok := true; ini_open := opens;
     ini_EMC_DEBUG := debug; ini_LINEAR_UNITS := units |}.

(** HAL gives a component and memory but refuses the second pin. *)
Definition hal_refuses_on : hal_env :=
  {| HAL_SUCCESS := 0; hal_init_ret := 12; hal_malloc_ok := true;
     hal_pin_bit_new_ret := fun name =>
       if String.eqb name "halui.machine.on"%string then -1 else 0 |}.


(** ** Vocabulary of a run of cycles *)








(** From [w] to [w'] the trace gained sleeps of EMC_COMMAND_DELAY and
    nothing else, and no channel was constructed. *)
Definition only_slept (w w' : world) : Prop :=
  (exists k : nat,
     trace w' = repeat (EvSleep EMC_COMMAND_DELAY) k ++ trace w) /\
  n_cmd_new w' = n_cmd_new w /\
  n_stat_new w' = n_stat_new w /\
  n_err_new w' = n_err_new w.



(** ** Unit conversion *)

Section Conversion.

Variable X : externs.

(** C8: under policy Auto with the program in inches, the conversion
    returns what it returns under the explicit policy Inch, the native
    value divided by the native scale and multiplied by INCH_PER_MM; the
    program units are read from the snapshot in the call and the call
    leaves the world as it found it. *)
Theorem convertLinearUnits_auto_inch (w : world) (st : EMC_STAT) (u : float) :
  externs_ok X = true ->
  emcStatus w = Some st ->
  programUnits (task st) = CANON_UNITS_INCHES X ->
  let v := (u / linearUnits (traj (motion st)) * INCH_PER_MM)%float in
  let w_auto := set_linearUnitConversion LINEAR_UNITS_AUTO w in
  let w_inch := set_linearUnitConversion LINEAR_UNITS_INCH w in
  convertLinearUnits X u w_auto = Ret v w_auto /\
  convertLinearUnits X u w_inch = Ret v w_inch /\
  returned (convertLinearUnits X u w_auto) = returned (convertLinearUnits X u w_inch).
Proof.
  intros Hok Hst Hpu v w_auto w_inch.
  unfold externs_ok in Hok.
  repeat (apply andb_prop in Hok; destruct Hok as [Hok ?]).
  assert (Hmm : (CANON_UNITS_INCHES X =? CANON_UNITS_MM X) = false).
  { rewrite Z.eqb_sym. now apply negb_true_iff. }
  assert (Ha : convertLinearUnits X u w_auto = Ret v w_auto).
  { unfold convertLinearUnits, deref_emcStatus, bind, gets, ret; simpl.
    rewrite Hst; simpl. rewrite Hpu, Hmm, Z.eqb_refl. reflexivity. }
  assert (Hi : convertLinearUnits X u w_inch = Ret v w_inch).
  { unfold convertLinearUnits, deref_emcStatus, bind, gets, ret; simpl.
    rewrite Hst; reflexivity. }
  rewrite Ha, Hi. auto.
Qed.

(** C10: under policy Auto, when the program units are none of MM, INCHES
    and CM, the conversion returns the native value it was given, not the
    value in millimetres. *)
Theorem convertLinearUnits_auto_unknown (w : world) (st : EMC_STAT) (u : float) :
  emcStatus w = Some st ->
  linearUnitConversion w = LINEAR_UNITS_AUTO ->
  programUnits (task st) <> CANON_UNITS_MM X ->
  programUnits (task st) <> CANON_UNITS_INCHES X ->
  programUnits (task st) <> CANON_UNITS_CM X ->
  convertLinearUnits X u w = Ret u w.
Proof.
  intros Hst Hconv Hmm Hin Hcm.
  unfold convertLinearUnits, deref_emcStatus, bind, gets, ret.
  rewrite Hst, Hconv.
  apply Z.eqb_neq in Hmm, Hin, Hcm.
  now rewrite Hmm, Hin, Hcm.
Qed.

End Conversion.

Lemma convertLinearUnits_auto_inch_witness :
  convertLinearUnits sample_externs 50.8%float
    (set_linearUnitConversion LINEAR_UNITS_AUTO
       (connected_world (sample_stat 0 RCS_DONE 1)))
  = Ret (50.8 / 25.4 * INCH_PER_MM)%float
      (set_linearUnitConversion LINEAR_UNITS_AUTO
         (connected_world (sample_stat 0 RCS_DONE 1))).
Proof.
  exact (proj1 (convertLinearUnits_auto_inch sample_externs
                  (connected_world (sample_stat 0 RCS_DONE 1))
                  (sample_stat 0 RCS_DONE 1) 50.8%float
                  eq_refl eq_refl eq_refl)).
Defined.

Lemma convertLinearUnits_auto_unknown_witness :
  convertLinearUnits sample_externs 50.8%float
    (connected_world (sample_stat 0 RCS_DONE 7))
  = Ret 50.8%float (connected_world (sample_stat 0 RCS_DONE 7)).
Proof.
  apply (convertLinearUnits_auto_unknown sample_externs
           (connected_world (sample_stat 0 RCS_DONE 7))
           (sample_stat 0 RCS_DONE 7) 50.8%float);
    try reflexivity; simpl; lia.
Defined.

(** ** The status poll and the waits *)

Section Waits.

Variable X : externs.
Variable E : environment.

Ltac munfold :=
  cbv beta iota delta
    [bind ret gets modify emit esleep deref_emcStatus next_poll] in *.

Lemma frame_refl (w : world) : frame w w.
Proof. constructor; auto. Qed.

Lemma frame_trans (w1 w2 w3 : world) : frame w1 w2 -> frame w2 w3 -> frame w1 w3.
Proof.
  intros [] []; constructor; try congruence; auto.
Qed.

(** A poll returns, to the world [polled w]. *)
Lemma updateStatus_ret (w : world) :
  exists r, updateStatus X E w = Ret r (polled X E w).
Proof.
  unfold polled, updateStatus; munfold.
  destruct (emcStatus w), (emcStatusBuffer w); simpl; eauto.
  destruct (so_valid _); simpl; eauto.
  destruct (_ =? -1); simpl; eauto.
  destruct (_ || _); simpl; eauto.
Qed.

(** What a poll of a connected status channel returns: 0 when the channel
    is valid and [peek()] gave 0 or EMC_STAT_TYPE, -1 otherwise. *)
Lemma updateStatus_result (w : world) (st : EMC_STAT) (c : channel) :
  emcStatus w = Some st ->
  emcStatusBuffer w = Some c ->
  returned (updateStatus X E w) =
  Some (if so_valid (stat_poll E (n_poll w))
           && negb (so_peek (stat_poll E (n_poll w)) =? -1)
           && ((so_peek (stat_poll E (n_poll w)) =? 0)
               || (so_peek (stat_poll E (n_poll w)) =? EMC_STAT_TYPE X))
        then 0 else -1).
Proof.
  intros Hs Hb. unfold updateStatus; munfold. rewrite Hs, Hb. simpl.
  destruct (so_valid _); simpl; [|reflexivity].
  destruct (_ =? -1); simpl; [reflexivity|].
  destruct (_ || _); reflexivity.
Qed.

Lemma polled_frame (w : world) : frame w (polled X E w).
Proof.
  unfold polled, updateStatus; munfold.
  destruct (emcStatus w) eqn:Hs, (emcStatusBuffer w) eqn:Hb; simpl;
    try (constructor; simpl; auto; congruence).
  destruct (so_valid _); simpl; [|constructor; simpl; auto; congruence].
  destruct (_ =? -1); simpl; [constructor; simpl; auto; congruence|].
  destruct (_ || _); simpl; constructor; simpl; auto; congruence.
Qed.

Lemma poll_step_frame (w : world) : frame w (poll_step X E w).
Proof.
  apply frame_trans with (polled X E w); [apply polled_frame|].
  unfold poll_step; munfold; simpl. constructor; simpl; auto.
Qed.

Lemma after_polls_frame (k : nat) (w : world) : frame w (after_polls X E k w).
Proof.
  induction k; simpl; [apply frame_refl|].
  eapply frame_trans; [exact IHk | apply poll_step_frame].
Qed.

Lemma after_polls_S (k : nat) (w : world) :
  after_polls X E (S k) w = after_polls X E k (poll_step X E w).
Proof. unfold after_polls. apply Nat.iter_succ_r. Qed.

Lemma wait_goes_on_frame (e : float) (w w' : world) :
  frame w w' -> wait_goes_on e w' = wait_goes_on e w.
Proof. intros F. unfold wait_goes_on. now rewrite (fr_timeout _ _ F). Qed.

Lemma has_status_frame (w w' : world) :
  frame w w' -> has_status w = true -> has_status w' = true.
Proof.
  intros F H. unfold has_status in *.
  destruct (emcStatus w) eqn:Hs; [|discriminate].
  destruct (emcStatus w') eqn:Hs'; auto.
  exfalso. apply (fr_status _ _ F); congruence.
Qed.

(** *** One turn of [emcCommandWaitReceived] *)

Lemma recv_loop_timeout (fuel : nat) (s : Z) (e : float) (w : world) :
  wait_goes_on e w = false ->
  emcCommandWaitReceived_loop X E (S fuel) s e w = Ret (-1) w.
Proof. intros H. simpl. munfold. now rewrite H. Qed.

Lemma recv_loop_hit (fuel : nat) (s : Z) (e : float) (w : world) :
  wait_goes_on e w = true ->
  echo_is s (polled X E w) = true ->
  emcCommandWaitReceived_loop X E (S fuel) s e w = Ret 0 (polled X E w).
Proof.
  intros Hgo Hecho. simpl. unfold bind at 1, gets at 1. rewrite Hgo.
  destruct (updateStatus_ret w) as [r Hr].
  unfold bind at 1. rewrite Hr. munfold.
  unfold echo_is in Hecho.
  destruct (emcStatus (polled X E w)); [|discriminate].
  now rewrite Hecho.
Qed.

Lemma recv_loop_miss (fuel : nat) (s : Z) (e : float) (w : world) :
  wait_goes_on e w = true ->
  has_status w = true ->
  echo_is s (polled X E w) = false ->
  emcCommandWaitReceived_loop X E (S fuel) s e w =
  emcCommandWaitReceived_loop X E fuel s (e + EMC_COMMAND_DELAY)%float (poll_step X E w).
Proof.
  intros Hgo Hst Hecho. simpl. unfold bind at 1, gets at 1. rewrite Hgo.
  destruct (updateStatus_ret w) as [r Hr].
  unfold bind at 1. rewrite Hr.
  pose proof (has_status_frame _ _ (polled_frame w) Hst) as Hst'.
  unfold has_status in Hst'. unfold echo_is in Hecho.
  unfold poll_step. munfold.
  destruct (emcStatus (polled X E w)); [|discriminate].
  now rewrite Hecho.
Qed.

(** The received-wait, run from any value of [end]. *)
Lemma recv_loop_run (k : nat) :
  forall (fuel : nat) (s : Z) (e : float) (w : world),
    has_status w = true ->
    (forall i, (i <= k)%nat -> wait_goes_on (Nat.iter i add_delay e) w = true) ->
    (forall i, (i < k)%nat -> echo_is s (polled X E (after_polls X E i w)) = false) ->
    echo_is s (polled X E (after_polls X E k w)) = true ->
    (k < fuel)%nat ->
    emcCommandWaitReceived_loop X E fuel s e w =
    Ret 0 (polled X E (after_polls X E k w)).
Proof.
  induction k; intros fuel s e w Hst Hgo Hmiss Hhit Hfuel.
  - destruct fuel; [lia|]. apply recv_loop_hit; auto. apply (Hgo O); lia.
  - destruct fuel; [lia|].
    rewrite recv_loop_miss; auto.
    + rewrite after_polls_S in Hhit |- *.
      apply IHk; auto.
      * eapply has_status_frame; [apply poll_step_frame | auto].
      * intros i Hi. rewrite (wait_goes_on_frame _ _ _ (poll_step_frame w)).
        specialize (Hgo (S i) ltac:(lia)).
        rewrite Nat.iter_succ_r in Hgo. exact Hgo.
      * intros i Hi. rewrite <- after_polls_S. apply Hmiss; lia.
      * lia.
    + apply (Hgo O); lia.
    + apply (Hmiss O); lia.
Qed.

Lemma recv_loop_expire (k : nat) :
  forall (fuel : nat) (s : Z) (e : float) (w : world),
    has_status w = true ->
    (forall i, (i < k)%nat -> wait_goes_on (Nat.iter i add_delay e) w = true) ->
    (forall i, (i < k)%nat -> echo_is s (polled X E (after_polls X E i w)) = false) ->
    wait_goes_on (Nat.iter k add_delay e) w = false ->
    (k < fuel)%nat ->
    emcCommandWaitReceived_loop X E fuel s e w = Ret (-1) (after_polls X E k w).
Proof.
  induction k; intros fuel s e w Hst Hgo Hmiss Hstop Hfuel.
  - destruct fuel; [lia|]. now apply recv_loop_timeout.
  - destruct fuel; [lia|].
    rewrite recv_loop_miss; auto.
    + rewrite after_polls_S.
      apply IHk; auto.
      * eapply has_status_frame; [apply poll_step_frame | auto].
      * intros i Hi. rewrite (wait_goes_on_frame _ _ _ (poll_step_frame w)).
        specialize (Hgo (S i) ltac:(lia)).
        rewrite Nat.iter_succ_r in Hgo. exact Hgo.
      * intros i Hi. rewrite <- after_polls_S. apply Hmiss; lia.
      * rewrite (wait_goes_on_frame _ _ _ (poll_step_frame w)).
        rewrite Nat.iter_succ_r in Hstop. exact Hstop.
      * lia.
    + apply (Hgo O); lia.
    + apply (Hmiss O); lia.
Qed.

(** However the received-wait ends, it ends in one of three ways. *)
Lemma recv_loop_cases (fuel : nat) :
  forall (s : Z) (e : float) (w : world),
    has_status w = true ->
    (exists k, (k < fuel)%nat /\
       emcCommandWaitReceived_loop X E fuel s e w =
         Ret 0 (polled X E (after_polls X E k w)) /\
       echo_is s (polled X E (after_polls X E k w)) = true) \/
    (exists k, (k < fuel)%nat /\
       emcCommandWaitReceived_loop X E fuel s e w = Ret (-1) (after_polls X E k w) /\
       wait_goes_on (Nat.iter k add_delay e) w = false) \/
    emcCommandWaitReceived_loop X E fuel s e w = Hang (after_polls X E fuel w).
Proof.
  induction fuel; intros s e w Hst.
  - right; right. reflexivity.
  - destruct (wait_goes_on e w) eqn:Hgo.
    + destruct (echo_is s (polled X E w)) eqn:Hecho.
      * left. exists O. split; [lia|]. split; auto. now apply recv_loop_hit.
      * rewrite recv_loop_miss by auto.
        assert (Hst' : has_status (poll_step X E w) = true)
          by (eapply has_status_frame; [apply poll_step_frame | auto]).
        destruct (IHfuel s (add_delay e) (poll_step X E w) Hst')
          as [[k [Hk [Hr He]]] | [[k [Hk [Hr He]]] | Hh]].
        -- left. exists (S k). rewrite after_polls_S. split; [lia|]. auto.
        -- right; left. exists (S k). rewrite after_polls_S. split; [lia|].
           split; auto.
           rewrite (wait_goes_on_frame _ _ _ (poll_step_frame w)) in He.
           now rewrite Nat.iter_succ_r.
        -- right; right. now rewrite after_polls_S.
    + right; left. exists O. split; [lia|]. split; auto.
      now apply recv_loop_timeout.
Qed.

(** With no timeout and no echo, every amount of fuel runs out. *)
Lemma recv_loop_forever (fuel : nat) :
  forall (s : Z) (e : float) (w : world),
    has_status w = true ->
    (emcTimeout w <=? 0.0)%float = true ->
    (forall k, echo_is s (polled X E (after_polls X E k w)) = false) ->
    emcCommandWaitReceived_loop X E fuel s e w = Hang (after_polls X E fuel w).
Proof.
  induction fuel; intros s e w Hst Htmo Hnever; [reflexivity|].
  rewrite recv_loop_miss; auto.
  - rewrite after_polls_S. apply IHfuel.
    + eapply has_status_frame; [apply poll_step_frame | auto].
    + now rewrite (fr_timeout _ _ (poll_step_frame w)).
    + intros k. rewrite <- after_polls_S. apply Hnever.
  - unfold wait_goes_on. now rewrite Htmo.
  - apply (Hnever O).
Qed.

(** *** One turn of the second loop of [emcCommandWaitDone] *)

Lemma done_loop_timeout (fuel : nat) (e : float) (w : world) :
  wait_goes_on e w = false ->
  emcCommandWaitDone_loop X E (S fuel) e w = Ret (-1) w.
Proof. intros H. simpl. munfold. now rewrite H. Qed.

Lemma done_loop_done (fuel : nat) (e : float) (w : world) :
  wait_goes_on e w = true ->
  status_is RCS_DONE (polled X E w) = true ->
  emcCommandWaitDone_loop X E (S fuel) e w = Ret 0 (polled X E w).
Proof.
  intros Hgo Hs. simpl. unfold bind at 1, gets at 1. rewrite Hgo.
  destruct (updateStatus_ret w) as [r Hr].
  unfold bind at 1. rewrite Hr. munfold.
  unfold status_is in Hs.
  destruct (emcStatus (polled X E w)); [|discriminate].
  now rewrite Hs.
Qed.

Lemma done_loop_error (fuel : nat) (e : float) (w : world) :
  wait_goes_on e w = true ->
  status_is RCS_ERROR (polled X E w) = true ->
  emcCommandWaitDone_loop X E (S fuel) e w = Ret (-1) (polled X E w).
Proof.
  intros Hgo Hs. simpl. unfold bind at 1, gets at 1. rewrite Hgo.
  destruct (updateStatus_ret w) as [r Hr].
  unfold bind at 1. rewrite Hr. munfold.
  unfold status_is in Hs.
  destruct (emcStatus (polled X E w)) as [st|] eqn:Hp; [|discriminate].
  destruct (status st) eqn:Hstat; try discriminate.
  simpl. rewrite Hp, Hstat. reflexivity.
Qed.

Lemma done_loop_exec (fuel : nat) (e : float) (w : world) :
  wait_goes_on e w = true ->
  has_status w = true ->
  status_is RCS_DONE (polled X E w) = false ->
  status_is RCS_ERROR (polled X E w) = false ->
  emcCommandWaitDone_loop X E (S fuel) e w =
  emcCommandWaitDone_loop X E fuel (add_delay e) (poll_step X E w).
Proof.
  intros Hgo Hst Hd He. simpl. unfold bind at 1, gets at 1. rewrite Hgo.
  destruct (updateStatus_ret w) as [r Hr].
  unfold bind at 1. rewrite Hr.
  pose proof (has_status_frame _ _ (polled_frame w) Hst) as Hst'.
  unfold has_status in Hst'. unfold status_is in Hd, He.
  unfold poll_step, add_delay. munfold.
  destruct (emcStatus (polled X E w)) as [st|] eqn:Hp; [|discriminate].
  rewrite Hd. cbv beta. rewrite Hp, He. reflexivity.
Qed.

(** The second loop sees ERROR at poll [j], having seen neither DONE nor
    ERROR before. *)
Lemma done_loop_run_error (j : nat) :
  forall (fuel : nat) (e : float) (w : world),
    has_status w = true ->
    (forall i, (i <= j)%nat -> wait_goes_on (Nat.iter i add_delay e) w = true) ->
    (forall i, (i < j)%nat ->
       status_is RCS_DONE (polled X E (after_polls X E i w)) = false /\
       status_is RCS_ERROR (polled X E (after_polls X E i w)) = false) ->
    status_is RCS_ERROR (polled X E (after_polls X E j w)) = true ->
    (j < fuel)%nat ->
    emcCommandWaitDone_loop X E fuel e w =
    Ret (-1) (polled X E (after_polls X E j w)).
Proof.
  induction j; intros fuel e w Hst Hgo Hexec Herr Hfuel.
  - destruct fuel; [lia|]. apply done_loop_error; auto. apply (Hgo O); lia.
  - destruct fuel; [lia|].
    rewrite done_loop_exec; auto.
    + rewrite after_polls_S in Herr |- *.
      apply IHj; auto.
      * eapply has_status_frame; [apply poll_step_frame | auto].
      * intros i Hi. rewrite (wait_goes_on_frame _ _ _ (poll_step_frame w)).
        specialize (Hgo (S i) ltac:(lia)).
        rewrite Nat.iter_succ_r in Hgo. exact Hgo.
      * intros i Hi. rewrite <- after_polls_S. apply Hexec; lia.
      * lia.
    + apply (Hgo O); lia.
    + apply (Hexec O); lia.
    + apply (Hexec O); lia.
Qed.

(** [emcCommandWaitDone] hands a failed receipt wait on, as the same -1. *)
Lemma WaitDone_of_recv_failure (fuel : nat) (s : Z) (w w' : world) :
  emcCommandWaitReceived X E fuel s w = Ret (-1) w' ->
  emcCommandWaitDone X E fuel s w = Ret (-1) w'.
Proof.
  intros H. unfold emcCommandWaitDone, bind at 1. now rewrite H.
Qed.

Lemma WaitDone_of_recv_success (fuel : nat) (s : Z) (w w' : world) :
  emcCommandWaitReceived X E fuel s w = Ret 0 w' ->
  emcCommandWaitDone X E fuel s w = emcCommandWaitDone_loop X E fuel 0.0%float w'.
Proof.
  intros H. unfold emcCommandWaitDone, bind at 1. now rewrite H.
Qed.

End Waits.

Section WaitClaims.

Variable X : externs.
Variable E : environment.

(** C2: after any number [k] of polls that did not show the echo of [s],
    whatever else they showed (no new data included), the received-wait
    returns 0 at the first poll that shows [echo_serial_number = s], with
    exactly [k+1] polls made; and if instead the timeout has elapsed when
    the loop test is made the [k+1]-th time, it returns -1. *)
Theorem emcCommandWaitReceived_echo_or_timeout
    (w : world) (s : Z) (k fuel : nat) :
  has_status w = true ->
  (k < fuel)%nat ->
  (forall i, (i < k)%nat ->
     wait_goes_on (end_after i) w = true /\
     echo_is s (polled X E (after_polls X E i w)) = false) ->
  (wait_goes_on (end_after k) w = true ->
   echo_is s (polled X E (after_polls X E k w)) = true ->
   emcCommandWaitReceived X E fuel s w =
     Ret 0 (polled X E (after_polls X E k w))) /\
  ((0.0 <? emcTimeout w)%float = true ->
   wait_goes_on (end_after k) w = false ->
   emcCommandWaitReceived X E fuel s w = Ret (-1) (after_polls X E k w)).
Proof.
  intros Hst Hfuel Hbefore. split.
  - intros Hgo Hhit. unfold emcCommandWaitReceived.
    apply recv_loop_run; auto.
    + intros i Hi. destruct (Nat.eq_dec i k) as [->|Hne]; [exact Hgo|].
      apply Hbefore; lia.
    + intros i Hi. now apply Hbefore.
  - intros _ Hstop. unfold emcCommandWaitReceived.
    apply recv_loop_expire; auto.
    + intros i Hi. now apply Hbefore.
    + intros i Hi. now apply Hbefore.
Qed.

(** C9: in the received-wait the result of the poll is not looked at. A
    poll that fails without showing the echo is followed by the sleep and
    the next turn; the wait ends only with 0 on an echo that matches or
    with -1 once the timeout has elapsed, and otherwise is still waiting
    when the fuel is spent; with the default timeout 0.0 and no matching
    echo it is still waiting for every amount of fuel, and so is
    [emcCommandWaitDone], which starts with it. *)
Theorem wait_ignores_poll_result (w : world) (s : Z) :
  has_status w = true ->
  (forall fuel e,
     wait_goes_on e w = true ->
     returned (updateStatus X E w) = Some (-1) ->
     echo_is s (polled X E w) = false ->
     emcCommandWaitReceived_loop X E (S fuel) s e w =
     emcCommandWaitReceived_loop X E fuel s (add_delay e) (poll_step X E w)) /\
  (forall fuel,
     (exists k, (k < fuel)%nat /\
        emcCommandWaitReceived X E fuel s w =
          Ret 0 (polled X E (after_polls X E k w)) /\
        echo_is s (polled X E (after_polls X E k w)) = true) \/
     (exists k, (k < fuel)%nat /\
        emcCommandWaitReceived X E fuel s w = Ret (-1) (after_polls X E k w) /\
        wait_goes_on (end_after k) w = false) \/
     emcCommandWaitReceived X E fuel s w = Hang (after_polls X E fuel w)) /\
  (emcTimeout w = 0.0%float ->
   (forall k, echo_is s (polled X E (after_polls X E k w)) = false) ->
   forall fuel,
     emcCommandWaitReceived X E fuel s w = Hang (after_polls X E fuel w) /\
     emcCommandWaitDone X E fuel s w = Hang (after_polls X E fuel w)).
Proof.
  intros Hst. split; [|split].
  - intros fuel e Hgo _ Hecho. now apply recv_loop_miss.
  - intros fuel. apply recv_loop_cases; auto.
  - intros Htmo Hnever fuel.
    assert (H : emcCommandWaitReceived X E fuel s w = Hang (after_polls X E fuel w)).
    { unfold emcCommandWaitReceived. apply recv_loop_forever; auto.
      now rewrite Htmo. }
    split; auto.
    unfold emcCommandWaitDone, bind. now rewrite H.
Qed.

(** C3, as the code has it: once the echo has matched at poll [k], if the
    polls that follow show neither DONE nor ERROR until poll [j] shows
    ERROR, and the timeout has not elapsed, [emcCommandWaitDone] returns
    -1; and -1 is also what it returns when the wait for the echo timed
    out. *)
Theorem emcCommandWaitDone_error_returns_minus_one
    (w : world) (s : Z) (k j fuel : nat) :
  has_status w = true ->
  (k < fuel)%nat -> (j < fuel)%nat ->
  (forall i, (i <= k)%nat -> wait_goes_on (end_after i) w = true) ->
  (forall i, (i < k)%nat -> echo_is s (polled X E (after_polls X E i w)) = false) ->
  echo_is s (polled X E (after_polls X E k w)) = true ->
  let w1 := polled X E (after_polls X E k w) in
  (forall i, (i <= j)%nat -> wait_goes_on (end_after i) w = true) ->
  (forall i, (i < j)%nat ->
     status_is RCS_DONE (polled X E (after_polls X E i w1)) = false /\
     status_is RCS_ERROR (polled X E (after_polls X E i w1)) = false) ->
  status_is RCS_ERROR (polled X E (after_polls X E j w1)) = true ->
  emcCommandWaitDone X E fuel s w = Ret (-1) (polled X E (after_polls X E j w1)) /\
  (forall w2 s2 w2',
     emcCommandWaitReceived X E fuel s2 w2 = Ret (-1) w2' ->
     emcCommandWaitDone X E fuel s2 w2 = Ret (-1) w2').
Proof.
  intros Hst Hk Hj Hgo Hmiss Hhit w1 Hgo2 Hexec Herr. split.
  - assert (Hrecv : emcCommandWaitReceived X E fuel s w = Ret 0 w1)
      by (unfold emcCommandWaitReceived; now apply recv_loop_run).
    rewrite (WaitDone_of_recv_success _ _ _ _ _ _ Hrecv).
    assert (F : frame w w1).
    { eapply frame_trans; [apply after_polls_frame | apply polled_frame]. }
    apply done_loop_run_error; auto.
    + eapply has_status_frame; eauto.
    + intros i Hi. rewrite (wait_goes_on_frame _ _ _ F). now apply Hgo2.
  - intros w2 s2 w2'. apply WaitDone_of_recv_failure.
Qed.

End WaitClaims.

Lemma emcCommandWaitReceived_echo_or_timeout_witness :
  emcCommandWaitReceived sample_externs (sample_env polls_ack5_error no_pins) 10 5
    (connected_world (sample_stat 4 RCS_DONE 1))
  = Ret 0 (polled sample_externs (sample_env polls_ack5_error no_pins)
             (after_polls sample_externs (sample_env polls_ack5_error no_pins) 2
                (connected_world (sample_stat 4 RCS_DONE 1))))
  /\
  emcCommandWaitReceived sample_externs (sample_env polls_ack5_error no_pins) 10 9
    (set_emcTimeout 0.25%float (connected_world (sample_stat 4 RCS_DONE 1)))
  = Ret (-1) (after_polls sample_externs (sample_env polls_ack5_error no_pins) 3
                (set_emcTimeout 0.25%float (connected_world (sample_stat 4 RCS_DONE 1)))).
Proof.
  split.
  - refine (proj1 (emcCommandWaitReceived_echo_or_timeout sample_externs
             (sample_env polls_ack5_error no_pins)
             (connected_world (sample_stat 4 RCS_DONE 1)) 5 2 10 _ _ _) _ _).
    + vm_compute; reflexivity.
    + lia.
    + intros i Hi. destruct i as [|[|i]]; [split; vm_compute; reflexivity .. | lia].
    + vm_compute; reflexivity.
    + vm_compute; reflexivity.
  - refine (proj2 (emcCommandWaitReceived_echo_or_timeout sample_externs
             (sample_env polls_ack5_error no_pins)
             (set_emcTimeout 0.25%float (connected_world (sample_stat 4 RCS_DONE 1)))
             9 3 10 _ _ _) _ _).
    + vm_compute; reflexivity.
    + lia.
    + intros i Hi. destruct i as [|[|[|i]]]; [split; vm_compute; reflexivity .. | lia].
    + vm_compute; reflexivity.
    + vm_compute; reflexivity.
Defined.

Lemma wait_ignores_poll_result_witness :
  emcCommandWaitReceived_loop sample_externs (sample_env polls_invalid no_pins) 3 9
    0.0%float (connected_world (sample_stat 4 RCS_DONE 1))
  = emcCommandWaitReceived_loop sample_externs (sample_env polls_invalid no_pins) 2 9
      (add_delay 0.0%float)
      (poll_step sample_externs (sample_env polls_invalid no_pins)
         (connected_world (sample_stat 4 RCS_DONE 1))).
Proof.
  refine (proj1 (wait_ignores_poll_result sample_externs
                  (sample_env polls_invalid no_pins)
                  (connected_world (sample_stat 4 RCS_DONE 1)) 9 _) 2%nat 0.0%float _ _ _);
    vm_compute; reflexivity.
Defined.

Lemma emcCommandWaitDone_error_returns_minus_one_witness :
  emcCommandWaitDone sample_externs (sample_env polls_ack5_error no_pins) 10 5
    (connected_world (sample_stat 4 RCS_DONE 1))
  = Ret (-1)
      (polled sample_externs (sample_env polls_ack5_error no_pins)
         (after_polls sample_externs (sample_env polls_ack5_error no_pins) 1
            (polled sample_externs (sample_env polls_ack5_error no_pins)
               (after_polls sample_externs (sample_env polls_ack5_error no_pins) 2
                  (connected_world (sample_stat 4 RCS_DONE 1)))))).
Proof.
  refine (proj1 (emcCommandWaitDone_error_returns_minus_one sample_externs
           (sample_env polls_ack5_error no_pins)
           (connected_world (sample_stat 4 RCS_DONE 1)) 5 2 1 10 _ _ _ _ _ _ _ _ _)).
  - vm_compute; reflexivity.
  - lia.
  - lia.
  - intros i Hi. destruct i as [|[|[|i]]]; [vm_compute; reflexivity .. | lia].
  - intros i Hi. destruct i as [|[|i]]; [vm_compute; reflexivity .. | lia].
  - vm_compute; reflexivity.
  - intros i Hi. destruct i as [|[|i]]; [vm_compute; reflexivity .. | lia].
  - intros i Hi. destruct i as [|i]; [split; vm_compute; reflexivity | lia].
  - vm_compute; reflexivity.
Defined.

(** C3, as the claim has it, fails: on one and the same status stream and
    with a timeout of 0.25 s, the wait for serial 5 ends because the
    status says ERROR after the echo matched, the wait for serial 9 ends
    because the timeout elapsed, and the caller gets -1 from both. *)
Lemma emcCommandWaitDone_error_same_as_timeout :
  let E := sample_env polls_ack5_error no_pins in
  let w := set_emcTimeout 0.25%float (connected_world (sample_stat 4 RCS_DONE 1)) in
  status_is RCS_ERROR (final (emcCommandWaitDone sample_externs E 10 5 w)) = true /\
  echo_is 5 (final (emcCommandWaitDone sample_externs E 10 5 w)) = true /\
  echo_is 9 (final (emcCommandWaitDone sample_externs E 10 9 w)) = false /\
  ~ (returned (emcCommandWaitDone sample_externs E 10 5 w) <>
     returned (emcCommandWaitDone sample_externs E 10 9 w)).
Proof.
  repeat split; try (vm_compute; reflexivity).
  intros H. apply H. vm_compute. reflexivity.
Qed.

(** ** Dispatch and the pin scan *)

Section Dispatch.

Variable X : externs.
Variable E : environment.

Ltac munfold :=
  cbv beta iota delta
    [bind ret gets modify emit esleep deref_emcStatus next_poll write
     pin old_pin] in *.

(** However a wait ends, it has only polled and slept. *)
Lemma recv_loop_final_frame (fuel : nat) :
  forall (s : Z) (e : float) (w : world),
    frame w (final (emcCommandWaitReceived_loop X E fuel s e w)).
Proof.
  induction fuel; intros s e w; simpl; [apply frame_refl|].
  unfold bind at 1, gets at 1.
  destruct (wait_goes_on e w); [|apply frame_refl].
  destruct (updateStatus_ret X E w) as [r Hr].
  unfold bind at 1. rewrite Hr.
  unfold bind at 1, deref_emcStatus, bind at 1, gets at 1.
  destruct (emcStatus (polled X E w)) eqn:Hp; simpl; [|apply polled_frame].
  destruct (_ =? s); simpl; [apply polled_frame|].
  eapply frame_trans; [apply (poll_step_frame X E w)|].
  apply IHfuel.
Qed.

Lemma done_loop_final_frame (fuel : nat) :
  forall (e : float) (w : world),
    frame w (final (emcCommandWaitDone_loop X E fuel e w)).
Proof.
  induction fuel; intros e w; simpl; [apply frame_refl|].
  unfold bind at 1, gets at 1.
  destruct (wait_goes_on e w); [|apply frame_refl].
  destruct (updateStatus_ret X E w) as [r Hr].
  unfold bind at 1. rewrite Hr.
  unfold bind at 1, deref_emcStatus, bind at 1, gets at 1.
  destruct (emcStatus (polled X E w)) eqn:Hp; simpl; [|apply polled_frame].
  destruct (rcs_status_eqb _ RCS_DONE); simpl; [apply polled_frame|].
  unfold bind at 1, bind at 1, gets at 1. rewrite Hp; simpl.
  destruct (rcs_status_eqb _ RCS_ERROR); simpl; [apply polled_frame|].
  eapply frame_trans; [apply (poll_step_frame X E w)|].
  apply IHfuel.
Qed.

Lemma WaitReceived_final_frame (fuel : nat) (s : Z) (w : world) :
  frame w (final (emcCommandWaitReceived X E fuel s w)).
Proof. apply recv_loop_final_frame. Qed.

Lemma WaitDone_final_frame (fuel : nat) (s : Z) (w : world) :
  frame w (final (emcCommandWaitDone X E fuel s w)).
Proof.
  unfold emcCommandWaitDone, bind.
  pose proof (WaitReceived_final_frame fuel s w) as F.
  destruct (emcCommandWaitReceived X E fuel s w) as [r w1| | |]; simpl in *; auto.
  destruct (negb _); simpl; auto.
  eapply frame_trans; [exact F | apply done_loop_final_frame].
Qed.

(** A dispatch steps the counter, writes its command and then only waits. *)
Lemma sendMachineOn_final (fuel : nat) (w : world) :
  emcCommandBuffer w <> None ->
  frame (after_write EMC_TASK_STATE_ON w) (final (sendMachineOn X E fuel w)).
Proof.
  intros Hcb. unfold sendMachineOn. munfold. simpl.
  destruct (emcCommandBuffer w); [|congruence]. simpl.
  destruct (emcWaitType w); simpl.
  - apply frame_refl.
  - apply WaitReceived_final_frame.
  - apply WaitDone_final_frame.
Qed.

Lemma sendMachineOff_final (fuel : nat) (w : world) :
  emcCommandBuffer w <> None ->
  frame (after_write EMC_TASK_STATE_OFF w) (final (sendMachineOff X E fuel w)).
Proof.
  intros Hcb. unfold sendMachineOff. munfold. simpl.
  destruct (emcCommandBuffer w); [|congruence]. simpl.
  destruct (emcWaitType w); simpl.
  - apply frame_refl.
  - apply WaitReceived_final_frame.
  - apply WaitDone_final_frame.
Qed.

(** Without a command channel a dispatch does not return. *)
Lemma sendMachineOn_no_channel (fuel : nat) (w : world) :
  emcCommandBuffer w = None -> returned (sendMachineOn X E fuel w) = None.
Proof.
  intros Hcb. unfold sendMachineOn. munfold. simpl. now rewrite Hcb.
Qed.

Lemma sendMachineOff_no_channel (fuel : nat) (w : world) :
  emcCommandBuffer w = None -> returned (sendMachineOff X E fuel w) = None.
Proof.
  intros Hcb. unfold sendMachineOff. munfold. simpl. now rewrite Hcb.
Qed.

Lemma sendMachineOn_ret (fuel : nat) (w w' : world) (r : Z) :
  sendMachineOn X E fuel w = Ret r w' ->
  frame (after_write EMC_TASK_STATE_ON w) w'.
Proof.
  intros H. destruct (emcCommandBuffer w) eqn:Hcb.
  - pose proof (sendMachineOn_final fuel w) as F. rewrite H in F.
    apply F. congruence.
  - pose proof (sendMachineOn_no_channel fuel w Hcb) as F.
    rewrite H in F. discriminate.
Qed.

Lemma sendMachineOff_ret (fuel : nat) (w w' : world) (r : Z) :
  sendMachineOff X E fuel w = Ret r w' ->
  frame (after_write EMC_TASK_STATE_OFF w) w'.
Proof.
  intros H. destruct (emcCommandBuffer w) eqn:Hcb.
  - pose proof (sendMachineOff_final fuel w) as F. rewrite H in F.
    apply F. congruence.
  - pose proof (sendMachineOff_no_channel fuel w Hcb) as F.
    rewrite H in F. discriminate.
Qed.

(** *** The monad, inverted *)

Lemma bind_ret_inv {A B : Type} (m : M A) (k : A -> M B) (w w' : world) (b : B) :
  bind m k w = Ret b w' ->
  exists a w1, m w = Ret a w1 /\ k a w1 = Ret b w'.
Proof.
  unfold bind. destruct (m w) as [a w1| | |]; try discriminate. eauto.
Qed.

Lemma final_bind {A B : Type} (R : world -> world -> Prop)
    (m : M A) (k : A -> M B) (w : world) :
  (forall w1 w2 w3, R w1 w2 -> R w2 w3 -> R w1 w3) ->
  R w (final (m w)) ->
  (forall a w1, m w = Ret a w1 -> R w1 (final (k a w1))) ->
  R w (final (bind m k w)).
Proof.
  intros Rtrans Hm Hk. unfold bind.
  destruct (m w) as [a w1| | |] eqn:Hmw; simpl in *; auto.
  eapply Rtrans; [exact Hm | now apply Hk].
Qed.

(** *** Serial numbers *)

Lemma wrap32_add (a b : Z) : wrap32 (wrap32 a + b) = wrap32 (a + b).
Proof.
  unfold wrap32.
  replace ((a + 2147483648) mod 4294967296 - 2147483648 + b + 2147483648)
    with ((a + 2147483648) mod 4294967296 + b) by lia.
  rewrite Z.add_mod_idemp_l by lia.
  f_equal. f_equal. lia.
Qed.

Lemma wrap32_in_range (a : Z) : INT_MIN <= a <= INT_MAX -> wrap32 a = a.
Proof.
  unfold wrap32, INT_MIN, INT_MAX. intros H.
  rewrite Z.mod_small by lia. lia.
Qed.

Lemma next_serials_app (s0 : Z) (m1 m2 : nat) :
  next_serials s0 (m1 + m2) =
  next_serials s0 m1 ++ next_serials (wrap32 (s0 + Z.of_nat m1)) m2.
Proof.
  unfold next_serials. rewrite seq_app, map_app. f_equal.
  replace (1 + m1)%nat with (m1 + 1)%nat by lia.
  revert m1. generalize 1%nat as a.
  induction m2; intros a m1; simpl; [reflexivity|].
  f_equal.
  - rewrite wrap32_add. f_equal. lia.
  - replace (S (m1 + a)) with (m1 + S a)%nat by lia. apply IHm2.
Qed.

Lemma wrap32_range (a : Z) : in_int (wrap32 a).
Proof.
  unfold in_int, wrap32, INT_MIN, INT_MAX.
  pose proof (Z.mod_pos_bound (a + 2147483648) 4294967296 ltac:(lia)). lia.
Qed.

Lemma grows_refl (w : world) : grows w w.
Proof.
  intros Hcb Hin. repeat split; auto; try apply Hin. exists O.
  unfold next_serials; simpl. rewrite app_nil_r, Z.add_0_r.
  split; auto. symmetry. now apply wrap32_in_range.
Qed.

Lemma grows_trans (w1 w2 w3 : world) : grows w1 w2 -> grows w2 w3 -> grows w1 w3.
Proof.
  intros G12 G23 Hcb Hin.
  destruct (G12 Hcb Hin) as [Hcb2 [Hin2 [m1 [Ha1 Hs1]]]].
  destruct (G23 Hcb2 Hin2) as [Hcb3 [Hin3 [m2 [Ha2 Hs2]]]].
  repeat split; auto; try apply Hin3. exists (m1 + m2)%nat. split.
  - rewrite Ha2, Ha1, Hs1, <- app_assoc. f_equal.
    symmetry. apply next_serials_app.
  - rewrite Hs2, Hs1, wrap32_add. f_equal. lia.
Qed.

Lemma quiet_grows (w w' : world) : quiet w w' -> grows w w'.
Proof.
  intros [Hc [Hs Hw]] Hcb Hin.
  rewrite Hc, Hs. repeat split; auto; try apply Hin. exists O.
  unfold assigned_in_order, next_serials. rewrite Hw. simpl.
  rewrite app_nil_r, Z.add_0_r. split; auto.
  symmetry. now apply wrap32_in_range.
Qed.

Lemma frame_quiet (w w' : world) : frame w w' -> quiet w w'.
Proof. intros []. repeat split; auto. Qed.



Lemma after_write_grows (st : EMC_TASK_STATE_ENUM) (w : world) :
  grows w (after_write st w).
Proof.
  intros Hcb Hin. split; [exact Hcb|]. split; [apply wrap32_range|].
  exists 1%nat. unfold assigned_in_order, next_serials, after_write. simpl.
  split; reflexivity.
Qed.

Lemma dispatched_after_write (st st' : EMC_TASK_STATE_ENUM) (w : world) :
  dispatched st (after_write st' w) =
  ((if is_set_state st (EMC_TASK_SET_STATE st' 0) then 1 else 0) + dispatched st w)%nat.
Proof.
  unfold dispatched, after_write. simpl.
  destruct st', st; reflexivity.
Qed.


(** *** The scan of one pin *)

Lemma check_hal_changes_split (fuel : nat) :
  check_hal_changes X E fuel =
  (scan_machine_on X E fuel ;;; scan_machine_off X E fuel).
Proof. reflexivity. Qed.




(** *** One cycle, then many *)







(** *** The counter, whatever the outcome *)

Ltac grows_by_quiet := apply quiet_grows; repeat split; reflexivity.

Lemma scan_machine_on_grows (fuel : nat) (w : world) :
  grows w (final (scan_machine_on X E fuel w)).
Proof.
  unfold scan_machine_on. munfold. simpl.
  destruct (negb _); simpl; [|apply grows_refl].
  destruct (negb _); simpl; [|grows_by_quiet].
  intros Hcb Hin.
  pose proof (sendMachineOn_final fuel w Hcb) as F.
  assert (G : grows w (final (sendMachineOn X E fuel w))).
  { eapply grows_trans; [apply (after_write_grows EMC_TASK_STATE_ON)|].
    apply quiet_grows, frame_quiet, F. }
  destruct (sendMachineOn X E fuel w) as [r w1| | |]; simpl in *;
    now apply G.
Qed.

Lemma scan_machine_off_grows (fuel : nat) (w : world) :
  grows w (final (scan_machine_off X E fuel w)).
Proof.
  unfold scan_machine_off. munfold. simpl.
  destruct (negb _); simpl; [|apply grows_refl].
  destruct (negb _); simpl; [|grows_by_quiet].
  intros Hcb Hin.
  pose proof (sendMachineOff_final fuel w Hcb) as F.
  assert (G : grows w (final (sendMachineOff X E fuel w))).
  { eapply grows_trans; [apply (after_write_grows EMC_TASK_STATE_OFF)|].
    apply quiet_grows, frame_quiet, F. }
  destruct (sendMachineOff X E fuel w) as [r w1| | |]; simpl in *;
    now apply G.
Qed.

Lemma check_hal_changes_grows (fuel : nat) (w : world) :
  grows w (final (check_hal_changes X E fuel w)).
Proof.
  rewrite check_hal_changes_split.
  apply final_bind; [apply grows_trans | apply scan_machine_on_grows |].
  intros _ w1 _. apply scan_machine_off_grows.
Qed.

Lemma modify_hal_pins_grows (w : world) : grows w (final (modify_hal_pins w)).
Proof.
  unfold modify_hal_pins. munfold.
  destruct (emcStatus w) as [st|]; simpl; [|apply grows_refl].
  destruct (state (task st)); simpl; grows_by_quiet.
Qed.

Lemma updateStatus_grows (w : world) : grows w (final (updateStatus X E w)).
Proof. apply quiet_grows, frame_quiet, polled_frame. Qed.

Lemma cycle_grows (fuel : nat) (w : world) : grows w (final (cycle X E fuel w)).
Proof.
  unfold cycle.
  apply final_bind; [apply grows_trans | unfold hal_sample; munfold; simpl; grows_by_quiet |].
  intros _ w1 _.
  apply final_bind; [apply grows_trans | apply check_hal_changes_grows |].
  intros _ w2 _.
  apply final_bind; [apply grows_trans | apply modify_hal_pins_grows |].
  intros _ w3 _.
  apply final_bind; [apply grows_trans | munfold; simpl; grows_by_quiet |].
  intros _ w4 _.
  apply final_bind; [apply grows_trans | apply updateStatus_grows |].
  intros r w5 _. apply grows_refl.
Qed.

Lemma cycles_grows (fuel n : nat) :
  forall w : world, grows w (final (cycles X E fuel n w)).
Proof.
  induction n; intros w; simpl; [apply grows_refl|].
  apply final_bind; [apply grows_trans | apply cycle_grows |].
  intros _ w1 _. apply IHn.
Qed.

(** *** Sorted lists of serial numbers *)

Lemma next_serials_exact (s0 : Z) (m : nat) :
  INT_MIN <= s0 -> s0 + Z.of_nat m <= INT_MAX ->
  next_serials s0 m = map (fun i => s0 + Z.of_nat i) (seq 1 m).
Proof.
  intros Hlo Hhi. unfold next_serials. apply map_ext_in.
  intros i Hi. apply in_seq in Hi. apply wrap32_in_range. lia.
Qed.

Lemma consecutive_sorted (s0 : Z) (m : nat) :
  forall a : nat,
    StronglySorted Z.lt (map (fun i => s0 + Z.of_nat i) (seq a m)).
Proof.
  induction m; intros a; simpl; constructor; [apply IHm|].
  apply Forall_forall. intros x Hx. apply in_map_iff in Hx.
  destruct Hx as [i [<- Hi]]. apply in_seq in Hi. lia.
Qed.

Lemma sorted_app (l1 l2 : list Z) :
  StronglySorted Z.lt l1 -> StronglySorted Z.lt l2 ->
  (forall x y, In x l1 -> In y l2 -> x < y) ->
  StronglySorted Z.lt (l1 ++ l2).
Proof.
  induction l1 as [|a l1 IH]; intros S1 S2 H; simpl; [exact S2|].
  inversion S1 as [|? ? S1' F1]; subst. constructor.
  - apply IH; auto. intros x y Hx Hy. apply H; simpl; auto.
  - apply Forall_app. split; [exact F1|].
    apply Forall_forall. intros y Hy. apply H; simpl; auto.
Qed.

Lemma sorted_NoDup (l : list Z) : StronglySorted Z.lt l -> NoDup l.
Proof.
  induction 1 as [|a l S IH F]; constructor; auto.
  intros Hin. rewrite Forall_forall in F. specialize (F a Hin). lia.
Qed.

End Dispatch.

(** ** Runs of cycles, completed or not *)

Section Completion.

Variable X : externs.
Variable E : environment.

Ltac munfold :=
  cbv beta iota delta
    [bind ret gets modify emit esleep deref_emcStatus next_poll write
     pin old_pin] in *.




(** *** At most one dispatch for an edge, whatever the outcome *)











(** *** When the waits return *)


























(** *** A dispatch that is never answered *)





End Completion.

Section DispatchClaims.

Variable X : externs.
Variable E : environment.


(** C4, as the code has it: the serial numbers given out over any number
    of cycles, completed or not, are the successors of the counter in
    32-bit arithmetic; as long as the counter does not pass INT_MAX they
    are strictly increasing, never repeat, and exceed every serial number
    given out before. *)
Theorem serial_numbers_increase_below_INT_MAX (fuel n : nat) (w : world) :
  emcCommandBuffer w <> None ->
  in_int (emcCommandSerialNumber w) ->
  StronglySorted Z.lt (assigned_in_order w) ->
  Forall (fun s => s <= emcCommandSerialNumber w) (assigned_in_order w) ->
  let w' := final (cycles X E fuel n w) in
  exists m : nat,
    assigned_in_order w' =
      assigned_in_order w ++ next_serials (emcCommandSerialNumber w) m /\
    emcCommandSerialNumber w' = wrap32 (emcCommandSerialNumber w + Z.of_nat m) /\
    (emcCommandSerialNumber w + Z.of_nat m <= INT_MAX ->
     emcCommandSerialNumber w' = emcCommandSerialNumber w + Z.of_nat m /\
     StronglySorted Z.lt (assigned_in_order w') /\
     NoDup (assigned_in_order w') /\
     Forall (fun s => s <= emcCommandSerialNumber w') (assigned_in_order w')).
Proof.
  intros Hcb Hin Hsorted Hbelow w'.
  destruct (cycles_grows X E fuel n w Hcb Hin) as [_ [_ [m [Ha Hs]]]].
  fold w' in Ha, Hs. exists m. split; [exact Ha|]. split; [exact Hs|].
  intros Hno.
  assert (Hexact := next_serials_exact (emcCommandSerialNumber w) m
                      (proj1 Hin) Hno).
  assert (Hs' : emcCommandSerialNumber w' = emcCommandSerialNumber w + Z.of_nat m).
  { rewrite Hs. apply wrap32_in_range. destruct Hin. split; lia. }
  assert (Hnew : forall y, In y (next_serials (emcCommandSerialNumber w) m) ->
                 emcCommandSerialNumber w < y <= emcCommandSerialNumber w').
  { intros y Hy. rewrite Hexact in Hy. apply in_map_iff in Hy.
    destruct Hy as [i [<- Hi]]. apply in_seq in Hi. lia. }
  assert (Hall : StronglySorted Z.lt (assigned_in_order w')).
  { rewrite Ha. apply sorted_app; auto.
    - rewrite Hexact. apply consecutive_sorted.
    - intros x y Hx Hy. rewrite Forall_forall in Hbelow.
      specialize (Hbelow x Hx). specialize (Hnew y Hy). lia. }
  split; [exact Hs'|]. split; [exact Hall|]. split; [now apply sorted_NoDup|].
  rewrite Ha. apply Forall_app. split.
  - eapply Forall_impl; [|exact Hbelow]. simpl. intros; lia.
  - apply Forall_forall. intros y Hy. specialize (Hnew y Hy). lia.
Qed.

End DispatchClaims.




Lemma serial_numbers_increase_below_INT_MAX_witness :
  let E := sample_env polls_ack5_error pins_on_held in
  let w' := final (cycles sample_externs E 10 3 world_serial4) in
  exists m : nat,
    assigned_in_order w' =
      assigned_in_order world_serial4 ++
      next_serials (emcCommandSerialNumber world_serial4) m /\
    emcCommandSerialNumber w' =
      wrap32 (emcCommandSerialNumber world_serial4 + Z.of_nat m) /\
    (emcCommandSerialNumber world_serial4 + Z.of_nat m <= INT_MAX ->
     emcCommandSerialNumber w' = emcCommandSerialNumber world_serial4 + Z.of_nat m /\
     StronglySorted Z.lt (assigned_in_order w') /\
     NoDup (assigned_in_order w') /\
     Forall (fun s => s <= emcCommandSerialNumber w') (assigned_in_order w')).
Proof.
  intros E w'.
  refine (serial_numbers_increase_below_INT_MAX sample_externs E 10 3
            world_serial4 _ _ _ _).
  - discriminate.
  - unfold in_int, INT_MIN, INT_MAX. simpl. lia.
  - constructor.
  - constructor.
Defined.

(** C4, as the claim has it, fails: a process that finds the echo at
    2147483646 when it starts and sees both pins go up gives out
    2147483647 and then -2147483648. *)
Lemma serial_number_wraps_at_INT_MAX :
  let E := sample_env polls_near_INT_MAX pins_both in
  let w' := final (main sample_externs E 10 1 initial_world) in
  assigned_in_order w' = [2147483647; -2147483648] /\
  ~ StronglySorted Z.lt (assigned_in_order w').
Proof.
  intros E w'.
  assert (H : assigned_in_order w' = [2147483647; -2147483648])
    by (vm_compute; reflexivity).
  split; [exact H|]. rewrite H. intros S.
  inversion S as [|? ? _ F]; subst. inversion F; subst. lia.
Qed.

(** ** Channel set-up *)

Section Connect.

Variable X : externs.
Variable E : environment.

Ltac munfold :=
  cbv beta iota delta
    [bind ret gets modify emit esleep deref_emcStatus next_poll write
     new_RCS_CMD_CHANNEL new_RCS_STAT_CHANNEL new_NML delete
     set_rcs_print_destination rcs_print_error] in *.

Lemma probing_refl (w : world) : probing w w.
Proof. repeat split. Qed.

Lemma probing_trans (w1 w2 w3 : world) :
  probing w1 w2 -> probing w2 w3 -> probing w1 w3.
Proof. intros [? [? ?]] [? [? ?]]. repeat split; congruence. Qed.

(** [emcTaskNmlGet] returns, having constructed channels and nothing else. *)
Lemma emcTaskNmlGet_ret (w : world) :
  exists r, emcTaskNmlGet X E w = Ret r (final (emcTaskNmlGet X E w)) /\
    probing w (final (emcTaskNmlGet X E w)) /\
    sleeps (trace (final (emcTaskNmlGet X E w))) = sleeps (trace w) /\
    n_err_new (final (emcTaskNmlGet X E w)) = n_err_new w.
Proof.
  unfold emcTaskNmlGet. munfold.
  destruct (emcCommandBuffer w) eqn:Hcb; simpl; rewrite ?Hcb;
    [|destruct (cmd_new_valid E (n_cmd_new w)); simpl];
    (destruct (emcStatusBuffer w) eqn:Hsb; simpl;
     [|destruct (negb (so_valid _) || negb _); simpl]);
    eexists; repeat split.
Qed.

Lemma emcErrorNmlGet_ret (w : world) :
  exists r, emcErrorNmlGet E w = Ret r (final (emcErrorNmlGet E w)) /\
    probing w (final (emcErrorNmlGet E w)).
Proof.
  unfold emcErrorNmlGet. munfold.
  destruct (emcErrorBuffer w) eqn:Heb; simpl;
    [|destruct (err_new_valid E (n_err_new w)); simpl];
    eexists; repeat split.
Qed.

Lemma tryNml_loop_probing (get : M Z) (fuel : nat) :
  (forall w, probing w (final (get w))) ->
  forall (e : float) (w : world),
    probing w (final (tryNml_loop fuel get e w)).
Proof.
  intros Hget. induction fuel; intros e w; simpl; [apply probing_refl|].
  apply final_bind; [apply probing_trans | apply Hget |].
  intros r w1 _. destruct r; simpl; try apply probing_refl;
    (apply final_bind; [apply probing_trans | munfold; simpl; repeat split |]);
    intros _ w2 _; (destruct (0.0 <? _)%float; [apply IHfuel | apply probing_refl]).
Qed.

Lemma emcTaskNmlGet_probing (w : world) : probing w (final (emcTaskNmlGet X E w)).
Proof. destruct (emcTaskNmlGet_ret w) as [r [_ [H _]]]. exact H. Qed.

Lemma emcErrorNmlGet_probing (w : world) : probing w (final (emcErrorNmlGet E w)).
Proof. destruct (emcErrorNmlGet_ret w) as [r [_ H]]. exact H. Qed.

(** *** The first retry loop when the attempts fail *)

Lemma attempts_fail_S (n : nat) (w : world) :
  attempts_fail X E (S n) w = true ->
  (exists r, emcTaskNmlGet X E w = Ret r (final (emcTaskNmlGet X E w)) /\
             (0 =? r) = false) /\
  attempts_fail X E n (attempt_step X E w) = true.
Proof.
  simpl. destruct (emcTaskNmlGet_ret w) as [r [Hr _]]. rewrite Hr. simpl.
  intros H. apply andb_prop in H. destruct H as [H1 H2].
  split; [|exact H2]. exists r. split; [reflexivity|].
  now apply negb_true_iff.
Qed.

Lemma tryNml_loop_again (fuel : nat) (e : float) (w : world) :
  attempts_fail X E 1 w = true ->
  (0.0 <? sub_interval e)%float = true ->
  tryNml_loop fuel (emcTaskNmlGet X E) e w =
  match fuel with
  | O => Hang w
  | S fuel' =>
      tryNml_loop fuel' (emcTaskNmlGet X E) (sub_interval e) (attempt_step X E w)
  end.
Proof.
  intros Hf Hgo. destruct fuel; [reflexivity|].
  apply attempts_fail_S in Hf. destruct Hf as [[r [Hr Hr0]] _].
  cbn [tryNml_loop]. unfold bind at 1. rewrite Hr. cbv beta. rewrite Hr0.
  unfold attempt_step, sub_interval in *. munfold. cbn [final]. now rewrite Hgo.
Qed.

Lemma tryNml_loop_last (fuel : nat) (e : float) (w : world) :
  attempts_fail X E 1 w = true ->
  (0.0 <? sub_interval e)%float = false ->
  tryNml_loop (S fuel) (emcTaskNmlGet X E) e w = Ret false (attempt_step X E w).
Proof.
  intros Hf Hgo.
  apply attempts_fail_S in Hf. destruct Hf as [[r [Hr Hr0]] _].
  cbn [tryNml_loop]. unfold bind at 1. rewrite Hr. cbv beta. rewrite Hr0.
  unfold attempt_step, sub_interval in *. munfold. cbn [final]. now rewrite Hgo.
Qed.

Lemma attempts_fail_1 (n : nat) (w : world) :
  attempts_fail X E (S n) w = true -> attempts_fail X E 1 w = true.
Proof.
  intros H. apply attempts_fail_S in H. destruct H as [[r [Hr Hr0]] _].
  cbn [attempts_fail]. rewrite Hr. cbn [returned]. now rewrite Hr0.
Qed.

(** [k] failed attempts that leave time, then one that leaves none. *)
Lemma tryNml_loop_fails (k : nat) :
  forall (fuel : nat) (e : float) (w : world),
    (forall i, (i < k)%nat -> (0.0 <? Nat.iter (S i) sub_interval e)%float = true) ->
    (0.0 <? Nat.iter (S k) sub_interval e)%float = false ->
    attempts_fail X E (S k) w = true ->
    (k < fuel)%nat ->
    tryNml_loop fuel (emcTaskNmlGet X E) e w =
    Ret false (Nat.iter (S k) (attempt_step X E) w).
Proof.
  induction k; intros fuel e w Hgo Hstop Hfail Hfuel.
  - destruct fuel; [lia|]. now apply tryNml_loop_last.
  - destruct fuel; [lia|].
    rewrite tryNml_loop_again;
      [| now apply attempts_fail_1 with (n := S k) | apply (Hgo O); lia].
    rewrite (Nat.iter_succ_r (S k)).
    apply IHk.
    + intros i Hi. rewrite <- Nat.iter_succ_r. apply Hgo. lia.
    + now rewrite <- Nat.iter_succ_r.
    + now apply attempts_fail_S in Hfail.
    + lia.
Qed.

Lemma attempt_step_facts (w : world) :
  probing w (attempt_step X E w) /\
  sleeps (trace (attempt_step X E w)) = RETRY_INTERVAL :: sleeps (trace w) /\
  n_err_new (attempt_step X E w) = n_err_new w.
Proof.
  destruct (emcTaskNmlGet_ret w) as [r [_ [[Hd [Hp Hw]] [Hs He]]]].
  unfold attempt_step. munfold. simpl.
  repeat split; auto. now rewrite Hs.
Qed.

Lemma attempts_facts (n : nat) (w : world) :
  probing w (Nat.iter n (attempt_step X E) w) /\
  sleeps (trace (Nat.iter n (attempt_step X E) w)) =
    repeat RETRY_INTERVAL n ++ sleeps (trace w) /\
  n_err_new (Nat.iter n (attempt_step X E) w) = n_err_new w.
Proof.
  induction n; [simpl; repeat split|].
  destruct IHn as [Hp [Hs He]].
  destruct (attempt_step_facts (Nat.iter n (attempt_step X E) w)) as [Hp' [Hs' He']].
  rewrite !Nat.iter_succ.
  split; [eapply probing_trans; eauto|].
  split; [now rewrite Hs', Hs | now rewrite He', He].
Qed.

(** *** The guarded calls of [set_rcs_print_destination] *)

Lemma diag_step {A : Type} (d : print_dest) (k : M A) (w : world) :
  (c <- gets (debug_nml_test X) ;;
   (if c then set_rcs_print_destination d else ret tt) ;;;
   k) w = k (diag_to X d w).
Proof.
  unfold diag_to. munfold. destruct (debug_nml_test X w); reflexivity.
Qed.

Lemma diag_to_facts (d : print_dest) (w : world) :
  EMC_DEBUG (diag_to X d w) = EMC_DEBUG w /\
  sleeps (trace (diag_to X d w)) = sleeps (trace w) /\
  n_err_new (diag_to X d w) = n_err_new w.
Proof.
  unfold diag_to. munfold. destruct (debug_nml_test X w); repeat split.
Qed.

Lemma debug_nml_test_probing (w w' : world) :
  probing w w' -> debug_nml_test X w' = debug_nml_test X w.
Proof. intros [H _]. unfold debug_nml_test. now rewrite H. Qed.

(** With a non-zero flag constant the test is false for every mask. *)
Lemma debug_nml_test_false (w : world) :
  EMC_DEBUG_NML X <> 0 -> debug_nml_test X w = false.
Proof.
  intros H. unfold debug_nml_test. apply Z.eqb_neq in H. rewrite H.
  now rewrite Z.land_0_r.
Qed.

Lemma diag_to_off (d : print_dest) (w : world) :
  debug_nml_test X w = false -> diag_to X d w = w.
Proof. intros H. unfold diag_to. now rewrite H. Qed.

Lemma tryNml_probing (fuel : nat) (w : world) :
  debug_nml_test X w = false -> probing w (final (tryNml X E fuel w)).
Proof.
  intros Ht. unfold tryNml. rewrite diag_step, (diag_to_off _ _ Ht).
  unfold bind at 1.
  pose proof (tryNml_loop_probing (emcTaskNmlGet X E) fuel
                emcTaskNmlGet_probing RETRY_TIME w) as P1.
  destruct (tryNml_loop fuel (emcTaskNmlGet X E) RETRY_TIME w)
    as [good w1| | |]; simpl in P1; auto.
  assert (Ht1 : debug_nml_test X w1 = false)
    by (now rewrite (debug_nml_test_probing _ _ P1)).
  rewrite diag_step, (diag_to_off _ _ Ht1).
  destruct good; simpl; auto.
  rewrite diag_step, (diag_to_off _ _ Ht1).
  unfold bind at 1.
  pose proof (tryNml_loop_probing (emcErrorNmlGet E) fuel
                emcErrorNmlGet_probing RETRY_TIME w1) as P2.
  destruct (tryNml_loop fuel (emcErrorNmlGet E) RETRY_TIME w1)
    as [good w2| | |]; simpl in P2;
    try (eapply probing_trans; [exact P1 | exact P2]).
  assert (Ht2 : debug_nml_test X w2 = false)
    by (now rewrite (debug_nml_test_probing _ _ P2)).
  rewrite diag_step, (diag_to_off _ _ Ht2).
  destruct good; simpl; eapply probing_trans; eauto.
Qed.

(** *** [thisQuit] *)

Lemma bind_exit_inv {A B : Type} (m : M A) (k : A -> M B) (w w' : world) (c : Z) :
  bind m k w = Exit c w' ->
  m w = Exit c w' \/ exists a w1, m w = Ret a w1 /\ k a w1 = Exit c w'.
Proof.
  unfold bind. destruct (m w) as [a w1| | |]; try discriminate.
  - intros H. right. exists a, w1. auto.
  - intros H. left. inversion H. reflexivity.
Qed.

Lemma recv_loop_no_exit (fuel : nat) :
  forall (s : Z) (e : float) (w w' : world) (c : Z),
    emcCommandWaitReceived_loop X E fuel s e w <> Exit c w'.
Proof.
  induction fuel; intros s e w w' c; simpl; [discriminate|].
  unfold bind at 1, gets at 1.
  destruct (wait_goes_on e w); [|discriminate].
  destruct (updateStatus_ret X E w) as [r Hr].
  unfold bind at 1. rewrite Hr. munfold.
  destruct (emcStatus (polled X E w)); [|discriminate].
  destruct (_ =? s); [discriminate|]. apply IHfuel.
Qed.

(** [thisQuit] does not return, and when it exits, it exits with 0. *)
Lemma thisQuit_exits_zero (fuel : nat) (w : world) :
  match thisQuit X E fuel w with
  | Ret _ _ => False
  | Exit c _ => c = 0
  | _ => True
  end.
Proof.
  destruct (thisQuit X E fuel w) as [[] w'|c w'| |] eqn:H; auto;
    unfold thisQuit in H.
  - repeat (apply bind_ret_inv in H; destruct H as [? [? [_ H]]]).
    discriminate.
  - repeat
      (apply bind_exit_inv in H; destruct H as [H | [? [? [_ H]]]];
       [ exfalso; munfold;
         repeat match type of H with
                | context [match ?a with Some _ => _ | None => _ end] =>
                    destruct a
                end;
         try discriminate H;
         destruct (emcCommandWaitReceived X E fuel _ _) eqn:Hw;
         try discriminate H;
         inversion H; subst; now apply recv_loop_no_exit in Hw
       | ]).
    unfold exit in H. now inversion H.
Qed.

End Connect.

Section ConnectClaims.

Variable X : externs.
Variable E : environment.

(** C5: when each of the first ten calls of [emcTaskNmlGet] fails,
    [tryNml] makes exactly those ten attempts, sleeps RETRY_INTERVAL (one
    second) after each, which uses up RETRY_TIME (ten seconds), returns -1
    and does not go on to the error channel or to another attempt. *)
Theorem tryNml_gives_up_after_ten_attempts (fuel : nat) (w : world) :
  (10 <= fuel)%nat ->
  attempts_fail X E 10 (diag_to X RCS_PRINT_TO_NULL w) = true ->
  let w' := diag_to X RCS_PRINT_TO_STDOUT
              (Nat.iter 10 (attempt_step X E) (diag_to X RCS_PRINT_TO_NULL w)) in
  tryNml X E fuel w = Ret (-1) w' /\
  sleeps (trace w') = repeat RETRY_INTERVAL 10 ++ sleeps (trace w) /\
  n_err_new w' = n_err_new w.
Proof.
  intros Hfuel Hfail w'. split.
  - unfold tryNml. rewrite diag_step. unfold bind at 1.
    rewrite (tryNml_loop_fails X E 9 fuel RETRY_TIME
               (diag_to X RCS_PRINT_TO_NULL w)); auto; try lia.
    + rewrite diag_step. reflexivity.
    + intros i Hi.
      do 9 (destruct i as [|i]; [vm_compute; reflexivity|]). lia.
  - destruct (attempts_facts X E 10 (diag_to X RCS_PRINT_TO_NULL w)) as [_ [Hs He]].
    destruct (diag_to_facts X RCS_PRINT_TO_NULL w) as [_ [Hs0 He0]].
    destruct (diag_to_facts X RCS_PRINT_TO_STDOUT
                (Nat.iter 10 (attempt_step X E) (diag_to X RCS_PRINT_TO_NULL w)))
      as [_ [Hs1 He1]].
    unfold w'. rewrite Hs1, He1, Hs, He, Hs0, He0. split; reflexivity.
Qed.

(** C7, on the code: with the debug mask at 0, so that NML debugging is
    not asked for, [tryNml] never calls [set_rcs_print_destination],
    whether it connects or not: the diagnostics stay where they were
    while it probes. *)
Theorem tryNml_never_redirects_diagnostics (fuel : nat) (w : world) :
  print_dests (trace (final (tryNml X E fuel (set_EMC_DEBUG 0 w)))) =
  print_dests (trace w).
Proof.
  assert (Ht : debug_nml_test X (set_EMC_DEBUG 0 w) = false) by reflexivity.
  destruct (tryNml_probing X E fuel _ Ht) as [_ [Hp _]].
  exact Hp.
Qed.

End ConnectClaims.

Lemma tryNml_gives_up_after_ten_attempts_witness :
  tryNml sample_externs dead_env 12 initial_world =
  Ret (-1)
    (diag_to sample_externs RCS_PRINT_TO_STDOUT
       (Nat.iter 10 (attempt_step sample_externs dead_env)
          (diag_to sample_externs RCS_PRINT_TO_NULL initial_world))).
Proof.
  refine (proj1 (tryNml_gives_up_after_ten_attempts sample_externs dead_env 12
                   initial_world _ _)).
  - lia.
  - vm_compute; reflexivity.
Defined.

(** C6, on the code: when no channel comes up, [main] prints its error,
    runs [thisQuit], which has nothing to tear down, and the process exits
    with status 0; and when the status channel came up but the command
    channel did not, [thisQuit] first waits for the echo of serial 0,
    which a task echoing 7 never gives: 200 polls later the process has
    neither torn anything down nor exited. *)
Theorem main_exits_zero_when_connection_fails :
  (exists w',
     main sample_externs dead_env 20 0 initial_world = Exit 0 w' /\
     emcCommandBuffer w' = None /\ emcStatusBuffer w' = None /\
     emcErrorBuffer w' = None) /\
  (exists w',
     main sample_externs no_command_env 200 0 initial_world = Hang w' /\
     emcStatusBuffer w' <> None).
Proof.
  split.
  - exists (final (main sample_externs dead_env 20 0 initial_world)).
    split; [|split; [|split]]; vm_compute; reflexivity.
  - exists (final (main sample_externs no_command_env 200 0 initial_world)).
    split; [vm_compute; reflexivity | vm_compute; discriminate].
Qed.

(** ** More on the waits *)

Section MoreWaits.

Variable X : externs.
Variable E : environment.

Ltac munfold :=
  cbv beta iota delta
    [bind ret gets modify emit esleep deref_emcStatus next_poll write] in *.

Lemma polled_trace (w : world) : trace (polled X E w) = trace w.
Proof.
  unfold polled, updateStatus; munfold.
  destruct (emcStatus w), (emcStatusBuffer w); simpl; auto.
  destruct (so_valid _); simpl; auto.
  destruct (_ =? -1); simpl; auto.
  destruct (_ || _); simpl; auto.
Qed.

Lemma poll_step_trace (w : world) :
  trace (poll_step X E w) = EvSleep EMC_COMMAND_DELAY :: trace w.
Proof. unfold poll_step; munfold; simpl. now rewrite polled_trace. Qed.

Lemma after_polls_trace (k : nat) (w : world) :
  trace (after_polls X E k w) = repeat (EvSleep EMC_COMMAND_DELAY) k ++ trace w.
Proof.
  induction k; [reflexivity|].
  unfold after_polls in *. rewrite Nat.iter_succ, poll_step_trace, IHk.
  reflexivity.
Qed.

(** What a returned value of the received-wait tells. *)
Lemma recv_loop_ret (fuel : nat) :
  forall (s : Z) (e : float) (w w' : world) (r : Z),
    emcCommandWaitReceived_loop X E fuel s e w = Ret r w' ->
    (r = 0 /\ echo_is s w' = true) \/ r = -1.
Proof.
  induction fuel; intros s e w w' r; simpl; [discriminate|].
  unfold bind at 1, gets at 1.
  destruct (wait_goes_on e w); [|intros H; inversion H; auto].
  destruct (updateStatus_ret X E w) as [r0 Hr].
  unfold bind at 1. rewrite Hr. munfold.
  destruct (emcStatus (polled X E w)) as [st|] eqn:Hp; [|discriminate].
  destruct (echo_serial_number st =? s) eqn:He.
  - intros H; inversion H; subst. left. split; auto.
    unfold echo_is. now rewrite Hp.
  - apply IHfuel.
Qed.

(** What a returned value of the second loop tells. *)
Lemma done_loop_ret (fuel : nat) :
  forall (e : float) (w w' : world) (r : Z),
    emcCommandWaitDone_loop X E fuel e w = Ret r w' ->
    (r = 0 /\ status_is RCS_DONE w' = true) \/ r = -1.
Proof.
  induction fuel; intros e w w' r; simpl; [discriminate|].
  unfold bind at 1, gets at 1.
  destruct (wait_goes_on e w); [|intros H; inversion H; auto].
  destruct (updateStatus_ret X E w) as [r0 Hr].
  unfold bind at 1. rewrite Hr. munfold.
  destruct (emcStatus (polled X E w)) as [st|] eqn:Hp; [|discriminate].
  destruct (rcs_status_eqb (status st) RCS_DONE) eqn:Hd.
  - intros H; inversion H; subst. left. split; auto.
    unfold status_is. now rewrite Hp.
  - cbv beta. rewrite Hp.
    destruct (rcs_status_eqb (status st) RCS_ERROR).
    + intros H; inversion H; auto.
    + apply IHfuel.
Qed.

Lemma WaitDone_ret (fuel : nat) (s : Z) (w w' : world) (r : Z) :
  emcCommandWaitDone X E fuel s w = Ret r w' ->
  (r = 0 /\ status_is RCS_DONE w' = true) \/ r = -1.
Proof.
  unfold emcCommandWaitDone, bind.
  destruct (emcCommandWaitReceived X E fuel s w) as [r0 w1| | |]; try discriminate.
  destruct (negb _).
  - intros H; inversion H; auto.
  - apply done_loop_ret.
Qed.

(** The second loop sees DONE at poll [j], having seen neither DONE nor
    ERROR before. *)
Lemma done_loop_run_done (j : nat) :
  forall (fuel : nat) (e : float) (w : world),
    has_status w = true ->
    (forall i, (i <= j)%nat -> wait_goes_on (Nat.iter i add_delay e) w = true) ->
    (forall i, (i < j)%nat ->
       status_is RCS_DONE (polled X E (after_polls X E i w)) = false /\
       status_is RCS_ERROR (polled X E (after_polls X E i w)) = false) ->
    status_is RCS_DONE (polled X E (after_polls X E j w)) = true ->
    (j < fuel)%nat ->
    emcCommandWaitDone_loop X E fuel e w =
    Ret 0 (polled X E (after_polls X E j w)).
Proof.
  induction j; intros fuel e w Hst Hgo Hexec Hdone Hfuel.
  - destruct fuel; [lia|]. apply done_loop_done; auto. apply (Hgo O); lia.
  - destruct fuel; [lia|].
    rewrite done_loop_exec; auto.
    + rewrite after_polls_S in Hdone |- *.
      apply IHj; auto.
      * eapply has_status_frame; [apply poll_step_frame | auto].
      * intros i Hi. rewrite (wait_goes_on_frame _ _ _ (poll_step_frame X E w)).
        specialize (Hgo (S i) ltac:(lia)).
        rewrite Nat.iter_succ_r in Hgo. exact Hgo.
      * intros i Hi. rewrite <- after_polls_S. apply Hexec; lia.
      * lia.
    + apply (Hgo O); lia.
    + apply (Hexec O); lia.
    + apply (Hexec O); lia.
Qed.

(** The second loop sees neither DONE nor ERROR until its own [end] has
    reached the timeout. *)
Lemma done_loop_expire (j : nat) :
  forall (fuel : nat) (e : float) (w : world),
    has_status w = true ->
    (forall i, (i < j)%nat -> wait_goes_on (Nat.iter i add_delay e) w = true) ->
    (forall i, (i < j)%nat ->
       status_is RCS_DONE (polled X E (after_polls X E i w)) = false /\
       status_is RCS_ERROR (polled X E (after_polls X E i w)) = false) ->
    wait_goes_on (Nat.iter j add_delay e) w = false ->
    (j < fuel)%nat ->
    emcCommandWaitDone_loop X E fuel e w = Ret (-1) (after_polls X E j w).
Proof.
  induction j; intros fuel e w Hst Hgo Hexec Hstop Hfuel.
  - destruct fuel; [lia|]. now apply done_loop_timeout.
  - destruct fuel; [lia|].
    rewrite done_loop_exec; auto.
    + rewrite after_polls_S.
      apply IHj; auto.
      * eapply has_status_frame; [apply poll_step_frame | auto].
      * intros i Hi. rewrite (wait_goes_on_frame _ _ _ (poll_step_frame X E w)).
        specialize (Hgo (S i) ltac:(lia)).
        rewrite Nat.iter_succ_r in Hgo. exact Hgo.
      * intros i Hi. rewrite <- after_polls_S. apply Hexec; lia.
      * rewrite (wait_goes_on_frame _ _ _ (poll_step_frame X E w)).
        rewrite Nat.iter_succ_r in Hstop. exact Hstop.
      * lia.
    + apply (Hgo O); lia.
    + apply (Hexec O); lia.
    + apply (Hexec O); lia.
Qed.

(** X1: once the echo has matched at poll [k], if the polls that follow
    show neither DONE nor ERROR until poll [j] shows DONE, and the timeout
    has not elapsed, [emcCommandWaitDone] returns 0 right after that poll:
    [k+1] polls for the echo, [j+1] for the completion. *)
Theorem emcCommandWaitDone_done_returns_zero
    (w : world) (s : Z) (k j fuel : nat) :
  has_status w = true ->
  (k < fuel)%nat -> (j < fuel)%nat ->
  (forall i, (i <= k)%nat -> wait_goes_on (end_after i) w = true) ->
  (forall i, (i < k)%nat -> echo_is s (polled X E (after_polls X E i w)) = false) ->
  echo_is s (polled X E (after_polls X E k w)) = true ->
  let w1 := polled X E (after_polls X E k w) in
  (forall i, (i <= j)%nat -> wait_goes_on (end_after i) w = true) ->
  (forall i, (i < j)%nat ->
     status_is RCS_DONE (polled X E (after_polls X E i w1)) = false /\
     status_is RCS_ERROR (polled X E (after_polls X E i w1)) = false) ->
  status_is RCS_DONE (polled X E (after_polls X E j w1)) = true ->
  emcCommandWaitDone X E fuel s w = Ret 0 (polled X E (after_polls X E j w1)).
Proof.
  intros Hst Hk Hj Hgo Hmiss Hhit w1 Hgo2 Hexec Hdone.
  assert (Hrecv : emcCommandWaitReceived X E fuel s w = Ret 0 w1)
    by (unfold emcCommandWaitReceived; now apply recv_loop_run).
  rewrite (WaitDone_of_recv_success _ _ _ _ _ _ Hrecv).
  assert (F : frame w w1).
  { eapply frame_trans; [apply after_polls_frame | apply polled_frame]. }
  apply done_loop_run_done; auto.
  - eapply has_status_frame; eauto.
  - intros i Hi. rewrite (wait_goes_on_frame _ _ _ F). now apply Hgo2.
Qed.

(** X2: the timeout is counted afresh in the second loop of
    [emcCommandWaitDone]. If the echo matched after [k] sleeps and the
    status then shows neither DONE nor ERROR, the function gives up with
    -1 only when the second loop's own [end], started again at 0.0, has
    reached the timeout, [j] sleeps later: it has then slept [k + j]
    times, whatever [k] was. *)
Theorem emcCommandWaitDone_counts_timeout_afresh
    (w : world) (s : Z) (k j fuel : nat) :
  has_status w = true ->
  (k < fuel)%nat -> (j < fuel)%nat ->
  (forall i, (i <= k)%nat -> wait_goes_on (end_after i) w = true) ->
  (forall i, (i < k)%nat -> echo_is s (polled X E (after_polls X E i w)) = false) ->
  echo_is s (polled X E (after_polls X E k w)) = true ->
  let w1 := polled X E (after_polls X E k w) in
  (forall i, (i < j)%nat ->
     wait_goes_on (end_after i) w = true /\
     status_is RCS_DONE (polled X E (after_polls X E i w1)) = false /\
     status_is RCS_ERROR (polled X E (after_polls X E i w1)) = false) ->
  wait_goes_on (end_after j) w = false ->
  emcCommandWaitDone X E fuel s w = Ret (-1) (after_polls X E j w1) /\
  trace (after_polls X E j w1) =
    repeat (EvSleep EMC_COMMAND_DELAY) (j + k) ++ trace w.
Proof.
  intros Hst Hk Hj Hgo Hmiss Hhit w1 Hexec Hstop.
  assert (Hrecv : emcCommandWaitReceived X E fuel s w = Ret 0 w1)
    by (unfold emcCommandWaitReceived; now apply recv_loop_run).
  assert (F : frame w w1).
  { eapply frame_trans; [apply after_polls_frame | apply polled_frame]. }
  split.
  - rewrite (WaitDone_of_recv_success _ _ _ _ _ _ Hrecv).
    apply done_loop_expire; auto.
    + eapply has_status_frame; eauto.
    + intros i Hi. rewrite (wait_goes_on_frame _ _ _ F). now apply Hexec.
    + intros i Hi. now apply Hexec.
    + now rewrite (wait_goes_on_frame _ _ _ F).
  - rewrite after_polls_trace. unfold w1.
    rewrite polled_trace, after_polls_trace, app_assoc, <- repeat_app.
    reflexivity.
Qed.

(** *** Whatever the outcome of a wait *)

Lemma only_slept_refl (w : world) : only_slept w w.
Proof. split; [exists O; reflexivity | auto]. Qed.

Lemma only_slept_trans (w1 w2 w3 : world) :
  only_slept w1 w2 -> only_slept w2 w3 -> only_slept w1 w3.
Proof.
  intros [[k1 T1] [C1 [S1 E1]]] [[k2 T2] [C2 [S2 E2]]].
  split; [|repeat split; congruence].
  exists (k2 + k1)%nat. now rewrite T2, T1, repeat_app, app_assoc.
Qed.

Lemma polled_only_slept (w : world) : only_slept w (polled X E w).
Proof.
  split; [exists O; apply polled_trace|].
  unfold polled, updateStatus; munfold.
  destruct (emcStatus w), (emcStatusBuffer w); simpl; auto.
  destruct (so_valid _); simpl; auto.
  destruct (_ =? -1); simpl; auto.
  destruct (_ || _); simpl; auto.
Qed.

Lemma poll_step_only_slept (w : world) : only_slept w (poll_step X E w).
Proof.
  destruct (polled_only_slept w) as [_ C].
  split; [exists 1%nat; apply poll_step_trace | exact C].
Qed.

Lemma recv_loop_final_slept (fuel : nat) :
  forall (s : Z) (e : float) (w : world),
    only_slept w (final (emcCommandWaitReceived_loop X E fuel s e w)).
Proof.
  induction fuel; intros s e w; simpl; [apply only_slept_refl|].
  unfold bind at 1, gets at 1.
  destruct (wait_goes_on e w); [|apply only_slept_refl].
  destruct (updateStatus_ret X E w) as [r Hr].
  unfold bind at 1. rewrite Hr.
  unfold bind at 1, deref_emcStatus, bind at 1, gets at 1.
  destruct (emcStatus (polled X E w)) eqn:Hp; simpl; [|apply polled_only_slept].
  destruct (_ =? s); simpl; [apply polled_only_slept|].
  eapply only_slept_trans; [apply (poll_step_only_slept w)|].
  apply IHfuel.
Qed.

Lemma done_loop_final_slept (fuel : nat) :
  forall (e : float) (w : world),
    only_slept w (final (emcCommandWaitDone_loop X E fuel e w)).
Proof.
  induction fuel; intros e w; simpl; [apply only_slept_refl|].
  unfold bind at 1, gets at 1.
  destruct (wait_goes_on e w); [|apply only_slept_refl].
  destruct (updateStatus_ret X E w) as [r Hr].
  unfold bind at 1. rewrite Hr.
  unfold bind at 1, deref_emcStatus, bind at 1, gets at 1.
  destruct (emcStatus (polled X E w)) eqn:Hp; simpl; [|apply polled_only_slept].
  destruct (rcs_status_eqb _ RCS_DONE); simpl; [apply polled_only_slept|].
  unfold bind at 1, bind at 1, gets at 1. rewrite Hp; simpl.
  destruct (rcs_status_eqb _ RCS_ERROR); simpl; [apply polled_only_slept|].
  eapply only_slept_trans; [apply (poll_step_only_slept w)|].
  apply IHfuel.
Qed.

Lemma WaitDone_final_slept (fuel : nat) (s : Z) (w : world) :
  only_slept w (final (emcCommandWaitDone X E fuel s w)).
Proof.
  unfold emcCommandWaitDone, bind.
  pose proof (recv_loop_final_slept fuel s 0.0%float w) as F.
  fold (emcCommandWaitReceived X E fuel s) in F.
  destruct (emcCommandWaitReceived X E fuel s w) as [r w1| | |]; simpl in *; auto.
  destruct (negb _); simpl; auto.
  eapply only_slept_trans; [exact F | apply done_loop_final_slept].
Qed.

(** X3: whatever their outcome, the two waits only poll and sleep. They
    leave the channels, the serial counter, the timeout and wait mode, the
    conversion policy, the debug mask, the pins and their shadows as they
    were, write no command, and never turn a non-null [emcStatus] null;
    and all they add to the trace is sleeps of EMC_COMMAND_DELAY, so that
    they construct and delete no channel and redirect no diagnostics. *)
Theorem waits_leave_globals_alone (fuel : nat) (s : Z) (w : world) :
  (frame w (final (emcCommandWaitReceived X E fuel s w)) /\
   only_slept w (final (emcCommandWaitReceived X E fuel s w))) /\
  (frame w (final (emcCommandWaitDone X E fuel s w)) /\
   only_slept w (final (emcCommandWaitDone X E fuel s w))).
Proof.
  split; split.
  - apply WaitReceived_final_frame.
  - apply recv_loop_final_slept.
  - apply WaitDone_final_frame.
  - apply WaitDone_final_slept.
Qed.

(** X4: a dispatch returns 0 or -1. Under EMC_WAIT_RECEIVED a 0 means the
    snapshot echoes the serial number just given out; under EMC_WAIT_DONE
    a 0 means the snapshot says DONE (of whichever command the task is
    reporting on by then). *)
Theorem sendMachineOn_zero_means (fuel : nat) (w w' : world) (r : Z) :
  sendMachineOn X E fuel w = Ret r w' ->
  (r = 0 \/ r = -1) /\
  emcCommandSerialNumber w' = wrap32 (emcCommandSerialNumber w + 1) /\
  (r = 0 ->
   match emcWaitType w with
   | EMC_WAIT_NONE => True
   | EMC_WAIT_RECEIVED => echo_is (emcCommandSerialNumber w') w' = true
   | EMC_WAIT_DONE => status_is RCS_DONE w' = true
   end).
Proof.
  intros H.
  pose proof (sendMachineOn_ret X E fuel w w' r H) as F.
  pose proof (fr_serial _ _ F) as Hs. simpl in Hs.
  split; [|split; [exact Hs|]].
  - unfold sendMachineOn in H. munfold. simpl in H.
    destruct (emcCommandBuffer w); [|discriminate]. simpl in H.
    destruct (emcWaitType w).
    + inversion H; auto.
    + apply recv_loop_ret in H. tauto.
    + apply WaitDone_ret in H. tauto.
  - intros ->. unfold sendMachineOn in H. munfold. simpl in H.
    destruct (emcCommandBuffer w); [|discriminate]. simpl in H.
    destruct (emcWaitType w); auto.
    + apply recv_loop_ret in H. rewrite Hs. destruct H as [[_ H]|H]; [auto|lia].
    + apply WaitDone_ret in H. destruct H as [[_ H]|H]; [auto|lia].
Qed.

End MoreWaits.

Lemma emcCommandWaitDone_done_returns_zero_witness :
  emcCommandWaitDone sample_externs (sample_env polls_ack5_done no_pins) 10 5
    (connected_world (sample_stat 4 RCS_DONE 1))
  = Ret 0
      (polled sample_externs (sample_env polls_ack5_done no_pins)
         (after_polls sample_externs (sample_env polls_ack5_done no_pins) 0
            (polled sample_externs (sample_env polls_ack5_done no_pins)
               (after_polls sample_externs (sample_env polls_ack5_done no_pins) 1
                  (connected_world (sample_stat 4 RCS_DONE 1)))))).
Proof.
  refine (emcCommandWaitDone_done_returns_zero sample_externs
            (sample_env polls_ack5_done no_pins)
            (connected_world (sample_stat 4 RCS_DONE 1)) 5 1 0 10 _ _ _ _ _ _ _ _ _).
  - vm_compute; reflexivity.
  - lia.
  - lia.
  - intros i Hi. destruct i as [|[|i]]; [vm_compute; reflexivity .. | lia].
  - intros i Hi. destruct i as [|i]; [vm_compute; reflexivity | lia].
  - vm_compute; reflexivity.
  - intros i Hi. destruct i as [|i]; [vm_compute; reflexivity | lia].
  - intros i Hi. lia.
  - vm_compute; reflexivity.
Defined.

Lemma emcCommandWaitDone_counts_timeout_afresh_witness :
  let E := sample_env polls_ack5_busy no_pins in
  let w := set_emcTimeout 0.25%float (connected_world (sample_stat 4 RCS_DONE 1)) in
  let w1 := polled sample_externs E (after_polls sample_externs E 2 w) in
  emcCommandWaitDone sample_externs E 10 5 w =
    Ret (-1) (after_polls sample_externs E 3 w1) /\
  trace (after_polls sample_externs E 3 w1) =
    repeat (EvSleep EMC_COMMAND_DELAY) (3 + 2) ++ trace w.
Proof.
  intros E w w1.
  refine (emcCommandWaitDone_counts_timeout_afresh sample_externs E w 5 2 3 10
            _ _ _ _ _ _ _ _).
  - vm_compute; reflexivity.
  - lia.
  - lia.
  - intros i Hi. destruct i as [|[|[|i]]]; [vm_compute; reflexivity .. | lia].
  - intros i Hi. destruct i as [|[|i]]; [vm_compute; reflexivity .. | lia].
  - vm_compute; reflexivity.
  - intros i Hi.
    destruct i as [|[|[|i]]];
      [split; [|split]; vm_compute; reflexivity .. | lia].
  - vm_compute; reflexivity.
Defined.

Lemma sendMachineOn_zero_means_witness :
  let E := sample_env polls_ack5_done no_pins in
  let w' := final (sendMachineOn sample_externs E 10 world_serial4) in
  (0 = 0 \/ 0 = -1) /\
  emcCommandSerialNumber w' = wrap32 (emcCommandSerialNumber world_serial4 + 1) /\
  (0 = 0 ->
   match emcWaitType world_serial4 with
   | EMC_WAIT_NONE => True
   | EMC_WAIT_RECEIVED => echo_is (emcCommandSerialNumber w') w' = true
   | EMC_WAIT_DONE => status_is RCS_DONE w' = true
   end).
Proof.
  intros E w'.
  refine (sendMachineOn_zero_means sample_externs E 10 world_serial4 w' 0 _).
  vm_compute; reflexivity.
Defined.

(** ** More on the channel set-up *)

Section MoreConnect.

Variable X : externs.
Variable E : environment.

Ltac munfold :=
  cbv beta iota delta
    [bind ret gets modify emit esleep deref_emcStatus next_poll write
     new_RCS_CMD_CHANNEL new_RCS_STAT_CHANNEL new_NML delete
     set_rcs_print_destination rcs_print_error] in *.

Ltac linked_cases :=
  unfold status_linked, task_up in *; simpl in *;
  repeat match goal with
         | |- _ /\ _ => split
         | |- _ <-> _ => split
         | |- _ -> _ => intro
         | H : _ <-> _ |- _ => destruct H
         end;
  try congruence; try discriminate; auto.

(** X5: [emcTaskNmlGet] returns 0 exactly when both task channels are up
    afterwards and -1 otherwise; it keeps a channel that was up, without
    constructing it again, so that what one attempt gained the next one
    keeps; and [emcStatus] stays null exactly when [emcStatusBuffer] is. *)
Theorem emcTaskNmlGet_spec (w : world) :
  status_linked w ->
  exists r w',
    emcTaskNmlGet X E w = Ret r w' /\
    status_linked w' /\
    ((r = 0 /\ task_up w' = true) \/ (r = -1 /\ task_up w' = false)) /\
    (emcCommandBuffer w <> None ->
     emcCommandBuffer w' = emcCommandBuffer w /\ n_cmd_new w' = n_cmd_new w) /\
    (emcStatusBuffer w <> None ->
     emcStatusBuffer w' = emcStatusBuffer w /\ emcStatus w' = emcStatus w /\
     n_stat_new w' = n_stat_new w).
Proof.
  intros L. unfold emcTaskNmlGet. munfold.
  destruct (emcCommandBuffer w) eqn:Hcb; simpl; rewrite ?Hcb;
    [|destruct (cmd_new_valid E (n_cmd_new w)); simpl];
    (destruct (emcStatusBuffer w) eqn:Hsb; simpl;
     [|destruct (negb (so_valid _) || negb _); simpl]);
    do 2 eexists; (split; [reflexivity|]);
    unfold status_linked, task_up in *; simpl; rewrite ?Hcb, ?Hsb;
    repeat split; auto; try tauto; try congruence; try discriminate;
    intros Hn; apply L in Hn; congruence.
Qed.

Lemma emcTaskNmlGet_linked (w w' : world) (r : Z) :
  status_linked w -> emcTaskNmlGet X E w = Ret r w' ->
  status_linked w' /\ (r = 0 -> task_up w' = true).
Proof.
  intros L. unfold emcTaskNmlGet. munfold.
  destruct (emcCommandBuffer w) eqn:Hcb; simpl; rewrite ?Hcb;
    [|destruct (cmd_new_valid E (n_cmd_new w)); simpl];
    (destruct (emcStatusBuffer w) eqn:Hsb; simpl;
     [|destruct (negb (so_valid _) || negb _); simpl]);
    intros H; inversion H; subst;
    unfold status_linked, task_up in *; simpl; rewrite ?Hcb, ?Hsb;
    repeat split; auto; try tauto; try congruence; try discriminate;
    intros Hn; apply L in Hn; congruence.
Qed.

(** The channels a world has. *)
Lemma emcErrorNmlGet_keeps (w w' : world) (r : Z) :
  emcErrorNmlGet E w = Ret r w' ->
  emcCommandBuffer w' = emcCommandBuffer w /\
  emcStatusBuffer w' = emcStatusBuffer w /\
  emcStatus w' = emcStatus w /\
  (r = 0 -> emcErrorBuffer w' <> None).
Proof.
  unfold emcErrorNmlGet. munfold.
  destruct (emcErrorBuffer w) eqn:Heb; simpl;
    [|destruct (err_new_valid E (n_err_new w)); simpl];
    intros H; inversion H; subst; simpl; rewrite ?Heb;
    repeat split; auto; try discriminate.
Qed.

(** When a retry loop says good, its last call of the getter returned 0. *)
Lemma tryNml_loop_true (get : M Z) (P : world -> Prop) :
  (forall w r w', P w -> get w = Ret r w' -> P w') ->
  (forall w d, P w -> P (set_trace (EvSleep d :: trace w) w)) ->
  forall (fuel : nat) (e : float) (w w' : world),
    P w ->
    tryNml_loop fuel get e w = Ret true w' ->
    exists w0, P w0 /\ get w0 = Ret 0 w'.
Proof.
  intros Hget Hsleep. induction fuel; intros e w w' HP; [discriminate|].
  cbn [tryNml_loop]. unfold bind at 1.
  destruct (get w) as [r w1| | |] eqn:Hg; try discriminate.
  destruct (0 =? r) eqn:Hr.
  - cbv beta iota delta [ret]. intros H. apply Z.eqb_eq in Hr. subst r.
    inversion H; subst w1. exists w. split; [exact HP | exact Hg].
  - munfold. destruct (0.0 <? _)%float; [|discriminate].
    apply IHfuel. apply Hsleep. eapply Hget; eauto.
Qed.

Lemma diag_to_channels (d : print_dest) (w : world) :
  emcCommandBuffer (diag_to X d w) = emcCommandBuffer w /\
  emcStatusBuffer (diag_to X d w) = emcStatusBuffer w /\
  emcStatus (diag_to X d w) = emcStatus w /\
  emcErrorBuffer (diag_to X d w) = emcErrorBuffer w.
Proof.
  unfold diag_to. munfold. destruct (debug_nml_test X w); repeat split.
Qed.

Lemma tryNml_zero_connected (fuel : nat) (w w' : world) :
  status_linked w ->
  tryNml X E fuel w = Ret 0 w' ->
  emcCommandBuffer w' <> None /\ emcStatusBuffer w' <> None /\
  emcStatus w' <> None /\ emcErrorBuffer w' <> None.
Proof.
  intros L. unfold tryNml. rewrite diag_step. unfold bind at 1.
  destruct (tryNml_loop fuel (emcTaskNmlGet X E) RETRY_TIME
              (diag_to X RCS_PRINT_TO_NULL w)) as [good w1| | |] eqn:H1;
    try discriminate.
  rewrite diag_step. destruct good; [|discriminate]. cbn [negb].
  rewrite diag_step. unfold bind at 1.
  destruct (tryNml_loop fuel (emcErrorNmlGet E) RETRY_TIME _)
    as [good w2| | |] eqn:H2; try discriminate.
  rewrite diag_step. destruct good; [|discriminate]. cbn [negb].
  intros H; inversion H; subst w'; clear H.
  apply (tryNml_loop_true (emcTaskNmlGet X E) status_linked) in H1.
  - destruct H1 as [w0 [L0 Hg]].
    destruct (emcTaskNmlGet_linked _ _ _ L0 Hg) as [L1 Hup].
    specialize (Hup eq_refl).
    set (P2 := fun v : world =>
                 emcCommandBuffer v <> None /\ emcStatusBuffer v <> None /\
                 emcStatus v <> None).
    assert (HP1 : P2 w1).
    { unfold P2, task_up, status_linked in *.
      destruct (emcCommandBuffer w1), (emcStatusBuffer w1); try discriminate.
      repeat split; try discriminate. intros Hn. apply L1 in Hn. discriminate. }
    apply (tryNml_loop_true (emcErrorNmlGet E) P2) in H2.
    + destruct H2 as [w3 [[Hc [Hs Hst]] Hg2]].
      apply emcErrorNmlGet_keeps in Hg2. destruct Hg2 as [Ec [Es [Est He]]].
      destruct (diag_to_channels RCS_PRINT_TO_STDOUT w2) as [Dc [Ds [Dst De]]].
      rewrite Dc, Ds, Dst, De, Ec, Es, Est. auto.
    + intros v r v' [Hc [Hs Hst]] Hg2.
      apply emcErrorNmlGet_keeps in Hg2. destruct Hg2 as [Ec [Es [Est _]]].
      unfold P2. now rewrite Ec, Es, Est.
    + intros v d Hv. exact Hv.
    + destruct (diag_to_channels RCS_PRINT_TO_NULL
                  (diag_to X RCS_PRINT_TO_STDOUT w1)) as [Dc [Ds [Dst _]]].
      destruct (diag_to_channels RCS_PRINT_TO_STDOUT w1) as [Dc' [Ds' [Dst' _]]].
      unfold P2. rewrite Dc, Ds, Dst, Dc', Ds', Dst'. exact HP1.
  - intros v r v' Lv Hg. now apply (emcTaskNmlGet_linked _ _ _ Lv Hg).
  - intros v d Lv. exact Lv.
  - destruct (diag_to_channels RCS_PRINT_TO_NULL w) as [_ [Ds [Dst _]]].
    unfold status_linked. now rewrite Ds, Dst.
Qed.

(** X6: when [tryNml] returns 0 the command, status and error channels
    are all up and [emcStatus] points at the status snapshot: nothing that
    follows in [main] runs on a null channel. *)
Theorem tryNml_success_connected (fuel : nat) (w w' : world) :
  status_linked w ->
  tryNml X E fuel w = Ret 0 w' ->
  emcCommandBuffer w' <> None /\ emcStatusBuffer w' <> None /\
  emcStatus w' <> None /\ emcErrorBuffer w' <> None.
Proof. apply tryNml_zero_connected. Qed.

(** A retry loop returns within the turns its budget allows, whatever the
    getter answers. *)
Lemma tryNml_loop_returns (get : M Z) (k : nat) :
  (forall w, exists r w', get w = Ret r w') ->
  forall (fuel : nat) (e : float) (w : world),
    (0.0 <? Nat.iter (S k) sub_interval e)%float = false ->
    (k < fuel)%nat ->
    exists good w', tryNml_loop fuel get e w = Ret good w'.
Proof.
  intros Hget. induction k; intros fuel e w Hstop Hfuel;
    (destruct fuel; [lia|]); cbn [tryNml_loop]; unfold bind at 1;
    destruct (Hget w) as [r [w1 Hr]]; rewrite Hr; cbv beta;
    (destruct (0 =? r); [unfold ret; eauto|]); munfold.
  - simpl in Hstop. unfold sub_interval in Hstop. rewrite Hstop. eauto.
  - destruct (0.0 <? e - RETRY_INTERVAL)%float eqn:Hgo; [|eauto].
    apply IHk; [|lia]. rewrite Nat.iter_succ_r in Hstop. exact Hstop.
Qed.

(** X7: [tryNml] never blocks: whatever the channels answer, it returns
    after at most ten attempts per retry loop, with 0 or with -1. *)
Theorem tryNml_returns_within_budget (fuel : nat) (w : world) :
  (10 <= fuel)%nat ->
  exists r w', tryNml X E fuel w = Ret r w' /\ (r = 0 \/ r = -1).
Proof.
  intros Hfuel. unfold tryNml. rewrite diag_step. unfold bind at 1.
  destruct (tryNml_loop_returns (emcTaskNmlGet X E) 9) with
    (fuel := fuel) (e := RETRY_TIME) (w := diag_to X RCS_PRINT_TO_NULL w)
    as [good [w1 H1]]; try lia; try (vm_compute; reflexivity).
  { intros v. destruct (emcTaskNmlGet_ret X E v) as [r [Hr _]]. eauto. }
  rewrite H1, diag_step. destruct good; cbn [negb]; [|unfold ret; eauto].
  rewrite diag_step. unfold bind at 1.
  destruct (tryNml_loop_returns (emcErrorNmlGet E) 9) with
    (fuel := fuel) (e := RETRY_TIME)
    (w := diag_to X RCS_PRINT_TO_NULL (diag_to X RCS_PRINT_TO_STDOUT w1))
    as [good [w2 H2]]; try lia; try (vm_compute; reflexivity).
  { intros v. destruct (emcErrorNmlGet_ret E v) as [r [Hr _]]. eauto. }
  rewrite H2, diag_step. destruct good; cbn [negb]; unfold ret; eauto.
Qed.

End MoreConnect.

Lemma emcTaskNmlGet_spec_witness :
  exists r w',
    emcTaskNmlGet sample_externs (sample_env polls_ack5_done no_pins) initial_world
      = Ret r w' /\
    status_linked w' /\
    ((r = 0 /\ task_up w' = true) \/ (r = -1 /\ task_up w' = false)) /\
    (emcCommandBuffer initial_world <> None ->
     emcCommandBuffer w' = emcCommandBuffer initial_world /\
     n_cmd_new w' = n_cmd_new initial_world) /\
    (emcStatusBuffer initial_world <> None ->
     emcStatusBuffer w' = emcStatusBuffer initial_world /\
     emcStatus w' = emcStatus initial_world /\
     n_stat_new w' = n_stat_new initial_world).
Proof.
  refine (emcTaskNmlGet_spec sample_externs (sample_env polls_ack5_done no_pins)
            initial_world _).
  split; reflexivity.
Defined.

Lemma tryNml_success_connected_witness :
  let w' := final (tryNml sample_externs (sample_env polls_ack5_done no_pins) 12
                     initial_world) in
  emcCommandBuffer w' <> None /\ emcStatusBuffer w' <> None /\
  emcStatus w' <> None /\ emcErrorBuffer w' <> None.
Proof.
  intros w'.
  refine (tryNml_success_connected sample_externs
            (sample_env polls_ack5_done no_pins) 12 initial_world w' _ _).
  - split; reflexivity.
  - vm_compute; reflexivity.
Defined.

Lemma tryNml_returns_within_budget_witness :
  exists r w',
    tryNml sample_externs dead_env 10 initial_world = Ret r w' /\
    (r = 0 \/ r = -1).
Proof.
  refine (tryNml_returns_within_budget sample_externs dead_env 10 initial_world _).
  lia.
Defined.

(** ** Shutdown and [main] *)

Section MoreMain.

Variable X : externs.
Variable E : environment.

Ltac munfold :=
  cbv beta iota delta
    [bind ret gets modify emit esleep deref_emcStatus next_poll write
     new_RCS_CMD_CHANNEL new_RCS_STAT_CHANNEL new_NML delete
     set_rcs_print_destination rcs_print_error pin old_pin exit fault hang] in *.

Lemma deleted_sleeps (k : nat) (d : float) (t : list event) :
  deleted (repeat (EvSleep d) k ++ t) = deleted t.
Proof. induction k; simpl; auto. Qed.

Lemma repeat_shift {A : Type} (a : A) (k : nat) (t : list A) :
  repeat a k ++ a :: t = a :: repeat a k ++ t.
Proof. induction k; simpl; [reflexivity|]. now rewrite IHk. Qed.

(** A received-wait that returns has slept some number of times. *)
Lemma recv_loop_ret_trace (fuel : nat) :
  forall (s : Z) (e : float) (w w' : world) (r : Z),
    emcCommandWaitReceived_loop X E fuel s e w = Ret r w' ->
    exists k, trace w' = repeat (EvSleep EMC_COMMAND_DELAY) k ++ trace w.
Proof.
  induction fuel; intros s e w w' r; [discriminate|].
  cbn [emcCommandWaitReceived_loop]. unfold bind at 1, gets at 1.
  destruct (wait_goes_on e w); [|intros H; inversion H; exists O; reflexivity].
  destruct (updateStatus_ret X E w) as [r0 Hr].
  unfold bind at 1. rewrite Hr.
  cbv beta iota delta [bind ret gets deref_emcStatus fault].
  destruct (emcStatus (polled X E w)) as [st|] eqn:Hp; [|discriminate].
  destruct (echo_serial_number st =? s).
  - intros H; inversion H; subst. exists O. simpl. apply polled_trace.
  - intros H. apply IHfuel in H. destruct H as [k Hk]. exists (S k).
    rewrite Hk. cbn [esleep emit modify set_trace trace].
    rewrite polled_trace. apply repeat_shift.
Qed.

(** What [thisQuit] does once its wait, if any, is over. *)
Lemma thisQuit_after_wait (fuel : nat) (w w1 w' : world) (c : Z) :
  status_linked w ->
  frame w w1 ->
  (exists k, trace w1 = repeat (EvSleep EMC_COMMAND_DELAY) k ++ trace w) ->
  (match emcStatusBuffer w with
   | Some _ => exists r, emcCommandWaitReceived X E fuel (emcCommandSerialNumber w) w
                         = Ret r w1
   | None => w1 = w
   end) ->
  thisQuit X E fuel w = Exit c w' ->
  c = 0 /\
  emcCommandBuffer w' = None /\ emcStatusBuffer w' = None /\
  emcStatus w' = None /\ emcErrorBuffer w' = None /\
  written (trace w') =
    match emcCommandBuffer w with
    | Some _ => [EMC_NULL (saveEmcCommandSerialNumber w)]
    | None => []
    end ++ written (trace w) /\
  deleted (trace w') =
    up_list (emcCommandBuffer w) CmdChan ++
    up_list (emcStatusBuffer w) StatChan ++
    up_list (emcErrorBuffer w) ErrChan ++ deleted (trace w).
Proof.
  intros L F [k Ht] Hwait H.
  pose proof (fr_cmd _ _ F) as Fc. pose proof (fr_statbuf _ _ F) as Fs.
  pose proof (fr_err _ _ F) as Fe. pose proof (fr_save _ _ F) as Fv.
  pose proof (fr_written _ _ F) as Fw.
  assert (Hd : deleted (trace w1) = deleted (trace w))
    by (rewrite Ht; apply deleted_sleeps).
  unfold thisQuit in H. munfold.
  destruct (emcStatusBuffer w) as [sb|] eqn:Hsb.
  - destruct Hwait as [r Hw]. rewrite Hw in H.
    destruct (emcCommandBuffer w) as [cb|] eqn:Hcb;
      destruct (emcErrorBuffer w) as [eb|] eqn:Heb;
      rewrite ?Hcb in Fc; rewrite ?Heb in Fe; rewrite ?Hsb in Fs;
      repeat (progress (simpl in H; rewrite ?Fc, ?Fe, ?Fs in H));
      inversion H; subst; simpl; rewrite ?Fv, ?Fw, ?Hd, ?Fe, ?Fc, ?Fs;
      repeat split; reflexivity.
  - subst w1. assert (Hst : emcStatus w = None) by (now apply L).
    destruct (emcCommandBuffer w) as [cb|] eqn:Hcb;
      destruct (emcErrorBuffer w) as [eb|] eqn:Heb;
      repeat (progress (simpl in H; rewrite ?Hcb, ?Heb, ?Hsb in H));
      inversion H; subst; simpl; rewrite ?Hst, ?Hcb, ?Heb, ?Hsb;
      repeat split; reflexivity.
Qed.

(** X8: when [thisQuit] exits, it exits with status 0, having written one
    EMC_NULL carrying the saved serial number if and only if the command
    channel was up, deleted each channel that was up exactly once, the
    error channel first, then status, then command, and left all four
    pointers null; called with no channel up it deletes nothing. *)
Theorem thisQuit_teardown (fuel : nat) (w w' : world) (c : Z) :
  status_linked w ->
  thisQuit X E fuel w = Exit c w' ->
  c = 0 /\
  emcCommandBuffer w' = None /\ emcStatusBuffer w' = None /\
  emcStatus w' = None /\ emcErrorBuffer w' = None /\
  written (trace w') =
    match emcCommandBuffer w with
    | Some _ => [EMC_NULL (saveEmcCommandSerialNumber w)]
    | None => []
    end ++ written (trace w) /\
  deleted (trace w') =
    up_list (emcCommandBuffer w) CmdChan ++
    up_list (emcStatusBuffer w) StatChan ++
    up_list (emcErrorBuffer w) ErrChan ++ deleted (trace w).
Proof.
  intros L H.
  assert (Hcase : (exists sb, emcStatusBuffer w = Some sb) \/ emcStatusBuffer w = None)
    by (destruct (emcStatusBuffer w); eauto).
  destruct Hcase as [[sb Hsb]|Hsb].
  - destruct (emcCommandWaitReceived X E fuel (emcCommandSerialNumber w) w)
      as [r w1| | |] eqn:Hw.
    + apply (thisQuit_after_wait fuel w w1 w' c); auto.
      * pose proof (WaitReceived_final_frame X E fuel (emcCommandSerialNumber w) w) as F.
        now rewrite Hw in F.
      * eapply recv_loop_ret_trace. exact Hw.
      * rewrite Hsb. eauto.
    + exfalso. now apply recv_loop_no_exit in Hw.
    + exfalso. unfold thisQuit in H. munfold. rewrite Hsb, Hw in H. discriminate.
    + exfalso. unfold thisQuit in H. munfold. rewrite Hsb, Hw in H. discriminate.
  - apply (thisQuit_after_wait fuel w w w' c); auto.
    + apply frame_refl.
    + exists O. reflexivity.
    + now rewrite Hsb.
Qed.

(** *** Who can call [exit] *)

Lemma ne_bind {A B : Type} (m : M A) (k : A -> M B) :
  never_exits m -> (forall a, never_exits (k a)) -> never_exits (bind m k).
Proof.
  intros Hm Hk w w' c H. apply bind_exit_inv in H.
  destruct H as [H|[a [w1 [_ H]]]]; [now apply Hm in H | now apply Hk in H].
Qed.

Lemma ne_bind_stuck {A B : Type} (m : M A) (k : A -> M B) :
  never_exits m -> never_returns m -> never_exits (bind m k).
Proof.
  intros Hm Hr w w' c H. apply bind_exit_inv in H.
  destruct H as [H|[a [w1 [H _]]]]; [now apply Hm in H | now apply Hr in H].
Qed.

Lemma nr_bind_l {A B : Type} (m : M A) (k : A -> M B) :
  never_returns m -> never_returns (bind m k).
Proof.
  intros Hm w w' b H. apply bind_ret_inv in H.
  destruct H as [a [w1 [H _]]]. now apply Hm in H.
Qed.

Lemma nr_bind_r {A B : Type} (m : M A) (k : A -> M B) :
  (forall a, never_returns (k a)) -> never_returns (bind m k).
Proof.
  intros Hk w w' b H. apply bind_ret_inv in H.
  destruct H as [a [w1 [_ H]]]. now apply Hk in H.
Qed.

Lemma ne_ret {A : Type} (a : A) : never_exits (ret a).
Proof. intros w w' c H. discriminate. Qed.

Lemma ne_gets {A : Type} (f : world -> A) : never_exits (gets f).
Proof. intros w w' c H. discriminate. Qed.

Lemma ne_modify (f : world -> world) : never_exits (modify f).
Proof. intros w w' c H. discriminate. Qed.

Lemma ne_fault {A : Type} : never_exits (@fault A).
Proof. intros w w' c H. discriminate. Qed.

Lemma ne_hang {A : Type} : never_exits (@hang A).
Proof. intros w w' c H. discriminate. Qed.

Ltac ne :=
  repeat first
    [ apply ne_ret | apply ne_gets | apply ne_modify | apply ne_fault
    | apply ne_hang | assumption
    | apply ne_bind
    | progress (cbv beta zeta)
    | match goal with |- forall _, _ => intro end
    | match goal with
      | |- never_exits (match ?x with Some _ => _ | None => _ end) => destruct x
      | |- never_exits (if ?b then _ else _) => destruct b
      | |- never_exits (match ?x with
                        | EMC_WAIT_NONE => _
                        | EMC_WAIT_RECEIVED => _
                        | EMC_WAIT_DONE => _
                        end) => destruct x
      | |- never_exits (match ?x with
                        | EMC_TASK_STATE_ON => _
                        | EMC_TASK_STATE_OFF => _
                        | EMC_TASK_STATE_OTHER => _
                        end) => destruct x
      end ].

Lemma ne_updateStatus : never_exits (updateStatus X E).
Proof.
  unfold updateStatus, next_poll. ne.
Qed.

Lemma ne_recv_loop (fuel : nat) (s : Z) (e : float) :
  never_exits (emcCommandWaitReceived_loop X E fuel s e).
Proof. intros w w' c. apply recv_loop_no_exit. Qed.

Lemma ne_done_loop (fuel : nat) :
  forall e, never_exits (emcCommandWaitDone_loop X E fuel e).
Proof.
  induction fuel; intros e; cbn [emcCommandWaitDone_loop]; [apply ne_hang|].
  pose proof ne_updateStatus.
  unfold deref_emcStatus, esleep, emit. ne. apply IHfuel.
Qed.

Lemma ne_WaitDone (fuel : nat) (s : Z) : never_exits (emcCommandWaitDone X E fuel s).
Proof.
  unfold emcCommandWaitDone, emcCommandWaitReceived.
  pose proof (ne_recv_loop fuel s 0.0%float).
  pose proof (ne_done_loop fuel 0.0%float). ne.
Qed.

Lemma ne_sendMachineOn (fuel : nat) : never_exits (sendMachineOn X E fuel).
Proof.
  unfold sendMachineOn, write, emit.
  pose proof (ne_WaitDone fuel). 
  assert (forall s, never_exits (emcCommandWaitReceived X E fuel s))
    by (intros s; apply ne_recv_loop).
  ne; auto.
Qed.

Lemma ne_sendMachineOff (fuel : nat) : never_exits (sendMachineOff X E fuel).
Proof.
  unfold sendMachineOff, write, emit.
  pose proof (ne_WaitDone fuel).
  assert (forall s, never_exits (emcCommandWaitReceived X E fuel s))
    by (intros s; apply ne_recv_loop).
  ne; auto.
Qed.

Lemma ne_cycle (fuel : nat) : never_exits (cycle X E fuel).
Proof.
  unfold cycle, hal_sample, check_hal_changes, modify_hal_pins, pin, old_pin,
    deref_emcStatus, esleep, emit.
  pose proof (ne_sendMachineOn fuel). pose proof (ne_sendMachineOff fuel).
  pose proof ne_updateStatus. ne.
Qed.

Lemma ne_cycles (fuel n : nat) : never_exits (cycles X E fuel n).
Proof.
  induction n; cbn [cycles]; [apply ne_ret|].
  pose proof (ne_cycle fuel). ne.
Qed.

Lemma ne_main_loop (fuel n : nat) : never_exits (main_loop X E fuel n).
Proof. unfold main_loop. pose proof (ne_cycles fuel n). ne. Qed.

Lemma nr_main_loop (fuel n : nat) : never_returns (main_loop X E fuel n).
Proof.
  unfold main_loop. apply nr_bind_r. intros _ w w' a H. discriminate.
Qed.

Lemma ne_tryNml_loop (get : M Z) (fuel : nat) :
  never_exits get -> forall e, never_exits (tryNml_loop fuel get e).
Proof.
  intros Hg. induction fuel; intros e; cbn [tryNml_loop]; [apply ne_hang|].
  unfold esleep, emit. ne. apply IHfuel.
Qed.

Lemma ne_emcTaskNmlGet : never_exits (emcTaskNmlGet X E).
Proof.
  unfold emcTaskNmlGet, new_RCS_CMD_CHANNEL, new_RCS_STAT_CHANNEL, delete, emit. ne.
Qed.

Lemma ne_emcErrorNmlGet : never_exits (emcErrorNmlGet E).
Proof. unfold emcErrorNmlGet, new_NML, delete, emit. ne. Qed.

Lemma ne_tryNml (fuel : nat) : never_exits (tryNml X E fuel).
Proof.
  unfold tryNml, set_rcs_print_destination, emit.
  pose proof (ne_tryNml_loop _ fuel ne_emcTaskNmlGet RETRY_TIME).
  pose proof (ne_tryNml_loop _ fuel ne_emcErrorNmlGet RETRY_TIME). ne.
Qed.

Lemma ne_iniLoad : never_exits (iniLoad E).
Proof. unfold iniLoad. ne. Qed.

Lemma nr_thisQuit (fuel : nat) : never_returns (thisQuit X E fuel).
Proof.
  intros w w' a H. pose proof (thisQuit_exits_zero X E fuel w) as Q.
  now rewrite H in Q.
Qed.

(** X9: [main] never returns, and its exit status is 1 only when the
    command line was refused: every other exit of the process, the one
    after a failed connection included, is [thisQuit]'s [exit(0)]. *)
Theorem main_exit_status (fuel n : nat) (w : world) :
  match main X E fuel n w with
  | Ret _ _ => False
  | Exit c _ => c = if args_ok E then 0 else 1
  | _ => True
  end.
Proof.
  unfold main. destruct (args_ok E); [|reflexivity]. cbn [negb].
  set (tail := hal_init_pins ;;; _).
  assert (NEt : never_exits tail).
  { unfold tail, hal_init_pins, deref_emcStatus.
    pose proof ne_updateStatus.
    assert (never_exits (main_loop X E fuel n ;;; thisQuit X E fuel ;;; ret 0))
      by (apply ne_bind_stuck; [apply ne_main_loop | apply nr_main_loop]).
    ne. }
  assert (NRt : never_returns tail).
  { unfold tail. do 6 (apply nr_bind_r; intro). apply nr_bind_l, nr_main_loop. }
  match goal with
  | |- match ?o with Ret _ _ => _ | Exit _ _ => _ | Fault _ => _ | Hang _ => _ end =>
      destruct o as [a w'|c w'| |] eqn:H; auto
  end.
  - exfalso.
    apply bind_ret_inv in H. destruct H as [? [w0 [_ H]]].
    apply bind_ret_inv in H. destruct H as [? [w1 [_ H]]].
    apply bind_ret_inv in H. destruct H as [r [w2 [_ H]]].
    apply bind_ret_inv in H. destruct H as [? [w3 [_ H]]].
    now apply NRt in H.
  - apply bind_exit_inv in H. destruct H as [H|[? [w0 [_ H]]]]; [discriminate|].
    apply bind_exit_inv in H.
    destruct H as [H|[? [w1 [_ H]]]]; [now apply ne_iniLoad in H|].
    apply bind_exit_inv in H.
    destruct H as [H|[r [w2 [_ H]]]]; [now apply ne_tryNml in H|].
    apply bind_exit_inv in H.
    destruct H as [H|[? [w3 [_ H]]]]; [|now apply NEt in H].
    destruct (negb (0 =? r)); [|discriminate].
    apply bind_exit_inv in H. destruct H as [H|[? [w4 [_ H]]]]; [discriminate|].
    apply bind_exit_inv in H. destruct H as [H|[? [w5 [H _]]]].
    + pose proof (thisQuit_exits_zero X E fuel w4) as Q. now rewrite H in Q.
    + now apply nr_thisQuit in H.
Qed.

End MoreMain.

Lemma thisQuit_teardown_witness :
  let E := sample_env polls_echo7 no_pins in
  let w' := final (thisQuit sample_externs E 10 world_quit) in
  0 = 0 /\
  emcCommandBuffer w' = None /\ emcStatusBuffer w' = None /\
  emcStatus w' = None /\ emcErrorBuffer w' = None /\
  written (trace w') =
    match emcCommandBuffer world_quit with
    | Some _ => [EMC_NULL (saveEmcCommandSerialNumber world_quit)]
    | None => []
    end ++ written (trace world_quit) /\
  deleted (trace w') =
    up_list (emcCommandBuffer world_quit) CmdChan ++
    up_list (emcStatusBuffer world_quit) StatChan ++
    up_list (emcErrorBuffer world_quit) ErrChan ++ deleted (trace world_quit).
Proof.
  intros E w'.
  refine (thisQuit_teardown sample_externs E 10 world_quit w' 0 _ _).
  - split; discriminate.
  - vm_compute; reflexivity.
Defined.

(** ** Start-up and the cycle *)

Section MoreCycle.

Variable X : externs.
Variable E : environment.

Ltac munfold :=
  cbv beta iota delta
    [bind ret gets modify emit esleep deref_emcStatus next_poll write
     pin old_pin] in *.


Lemma polled_n_poll (w : world) :
  n_poll (polled X E w) =
  match emcStatus w, emcStatusBuffer w with
  | Some _, Some _ => S (n_poll w)
  | _, _ => n_poll w
  end.
Proof.
  unfold polled, updateStatus; munfold.
  destruct (emcStatus w), (emcStatusBuffer w); simpl; auto.
  destruct (so_valid _); simpl; auto.
  destruct (_ =? -1); simpl; auto.
  destruct (_ || _); simpl; auto.
Qed.


(** *** One pin scan that dispatches *)

Lemma scan_machine_on_sent (fuel : nat) (w w' : world) :
  scan_machine_on X E fuel w = Ret tt w' ->
  machine_on (halui_data w) <> machine_on (old_halui_data w) ->
  machine_on (halui_data w) <> 0 ->
  written (trace w') =
    EMC_TASK_SET_STATE EMC_TASK_STATE_ON (wrap32 (emcCommandSerialNumber w + 1))
    :: written (trace w) /\
  emcCommandSerialNumber w' = wrap32 (emcCommandSerialNumber w + 1) /\
  halui_data w' = halui_data w /\
  machine_off (old_halui_data w') = machine_off (old_halui_data w).
Proof.
  intros H Hpo Hp0. apply Z.eqb_neq in Hpo, Hp0.
  unfold scan_machine_on in H. munfold. rewrite Hpo in H. cbn [negb] in H.
  cbv beta iota in H. rewrite Hp0 in H. cbn [negb] in H. cbv beta iota in H.
  destruct (sendMachineOn X E fuel w) as [r w1| | |] eqn:Hsend; try discriminate.
  inversion H; subst w'; simpl.
  pose proof (sendMachineOn_ret _ _ _ _ _ _ Hsend) as F.
  rewrite (fr_pins _ _ F), (fr_old _ _ F), (fr_written _ _ F), (fr_serial _ _ F).
  repeat split; reflexivity.
Qed.

Lemma scan_machine_off_sent (fuel : nat) (w w' : world) :
  scan_machine_off X E fuel w = Ret tt w' ->
  machine_off (halui_data w) <> machine_off (old_halui_data w) ->
  machine_off (halui_data w) <> 0 ->
  written (trace w') =
    EMC_TASK_SET_STATE EMC_TASK_STATE_OFF (wrap32 (emcCommandSerialNumber w + 1))
    :: written (trace w) /\
  emcCommandSerialNumber w' = wrap32 (emcCommandSerialNumber w + 1).
Proof.
  intros H Hpo Hp0. apply Z.eqb_neq in Hpo, Hp0.
  unfold scan_machine_off in H. munfold. rewrite Hpo in H. cbn [negb] in H.
  cbv beta iota in H. rewrite Hp0 in H. cbn [negb] in H. cbv beta iota in H.
  destruct (sendMachineOff X E fuel w) as [r w1| | |] eqn:Hsend; try discriminate.
  inversion H; subst w'; simpl.
  pose proof (sendMachineOff_ret _ _ _ _ _ _ Hsend) as F.
  rewrite (fr_written _ _ F), (fr_serial _ _ F).
  repeat split; reflexivity.
Qed.

(** X11: when both input pins rise in the same scan, the machine-on
    command is written first and the machine-off command second, with the
    next two serial numbers; the later command, the one the task is left
    with, is machine-off. *)
Theorem both_pins_rise_on_then_off (fuel : nat) (w w' : world) :
  check_hal_changes X E fuel w = Ret tt w' ->
  machine_on (halui_data w) <> machine_on (old_halui_data w) ->
  machine_on (halui_data w) <> 0 ->
  machine_off (halui_data w) <> machine_off (old_halui_data w) ->
  machine_off (halui_data w) <> 0 ->
  let s1 := wrap32 (emcCommandSerialNumber w + 1) in
  let s2 := wrap32 (s1 + 1) in
  written (trace w') =
    EMC_TASK_SET_STATE EMC_TASK_STATE_OFF s2
    :: EMC_TASK_SET_STATE EMC_TASK_STATE_ON s1 :: written (trace w) /\
  emcCommandSerialNumber w' = s2.
Proof.
  intros H Hon Hon0 Hoff Hoff0 s1 s2.
  rewrite check_hal_changes_split in H.
  apply bind_ret_inv in H. destruct H as [[] [w1 [H1 H2]]].
  destruct (scan_machine_on_sent _ _ _ H1 Hon Hon0) as [W1 [S1 [D1 O1]]].
  rewrite <- D1, <- O1 in Hoff. rewrite <- D1 in Hoff0.
  destruct (scan_machine_off_sent _ _ _ H2 Hoff Hoff0) as [W2 S2].
  rewrite W2, S2, W1, S1. split; reflexivity.
Qed.

(** X12: a cycle that finds the input pins as their shadows have them
    writes no command, sleeps once for EMC_IO_CYCLE_TIME and polls the
    status once; the output pin machine-is-on it leaves is the task state
    of the snapshot the cycle started with, not of the one it polls at its
    end. *)
Theorem idle_cycle (fuel : nat) (w : world) (st : EMC_STAT) :
  emcStatus w = Some st ->
  hal_in E (n_cycle w) =
    (machine_on (old_halui_data w), machine_off (old_halui_data w)) ->
  exists w',
    cycle X E fuel w = Ret tt w' /\
    trace w' = EvSleep (EMC_IO_CYCLE_TIME X) :: trace w /\
    n_poll w' = match emcStatusBuffer w with
                | Some _ => S (n_poll w)
                | None => n_poll w
                end /\
    machine_is_on (halui_data w') =
      match state (task st) with EMC_TASK_STATE_ON => 1 | _ => 0 end /\
    old_halui_data w' = old_halui_data w /\
    emcCommandSerialNumber w' = emcCommandSerialNumber w.
Proof.
  intros Hst Hpins.
  unfold cycle, hal_sample, check_hal_changes, modify_hal_pins. munfold. simpl.
  rewrite Hpins. simpl. repeat (rewrite Z.eqb_refl; simpl). rewrite Hst.
  destruct (state (task st)); simpl;
    match goal with
    | |- context [updateStatus X E ?v] =>
        destruct (updateStatus_ret X E v) as [r Hr]; rewrite Hr;
        pose proof (polled_frame X E v) as F;
        pose proof (polled_trace X E v) as T;
        pose proof (polled_n_poll v) as N;
        exists (polled X E v)
    end;
    simpl in N; rewrite Hst in N;
    (split; [reflexivity|]);
    rewrite T, N, (fr_pins _ _ F), (fr_old _ _ F), (fr_serial _ _ F);
    repeat split; reflexivity.
Qed.

End MoreCycle.


Lemma both_pins_rise_on_then_off_witness :
  let E := sample_env polls_ack_5_6 no_pins in
  let w' := final (check_hal_changes sample_externs E 10 world_both_up) in
  written (trace w') =
    EMC_TASK_SET_STATE EMC_TASK_STATE_OFF
      (wrap32 (wrap32 (emcCommandSerialNumber world_both_up + 1) + 1))
    :: EMC_TASK_SET_STATE EMC_TASK_STATE_ON
         (wrap32 (emcCommandSerialNumber world_both_up + 1))
    :: written (trace world_both_up) /\
  emcCommandSerialNumber w' =
    wrap32 (wrap32 (emcCommandSerialNumber world_both_up + 1) + 1).
Proof.
  intros E w'.
  refine (both_pins_rise_on_then_off sample_externs E 10 world_both_up w' _ _ _ _ _).
  - vm_compute; reflexivity.
  - simpl; lia.
  - simpl; lia.
  - simpl; lia.
  - simpl; lia.
Defined.

Lemma idle_cycle_witness :
  let E := sample_env polls_ack5_done no_pins in
  exists w',
    cycle sample_externs E 10 world_serial4 = Ret tt w' /\
    trace w' = EvSleep (EMC_IO_CYCLE_TIME sample_externs) :: trace world_serial4 /\
    n_poll w' = match emcStatusBuffer world_serial4 with
                | Some _ => S (n_poll world_serial4)
                | None => n_poll world_serial4
                end /\
    machine_is_on (halui_data w') =
      match state (task (sample_stat 4 RCS_DONE 1)) with
      | EMC_TASK_STATE_ON => 1
      | _ => 0
      end /\
    old_halui_data w' = old_halui_data world_serial4 /\
    emcCommandSerialNumber w' = emcCommandSerialNumber world_serial4.
Proof.
  intros E.
  refine (idle_cycle sample_externs E 10 world_serial4 (sample_stat 4 RCS_DONE 1) _ _);
    reflexivity.
Defined.

(** ** More on configuration and conversion *)

Section MoreConfig.

Variable X : externs.
Variable E : environment.

(** X13: under policy Auto the conversion returns what the explicit
    policy of the program's unit system returns, for millimetres and for
    centimetres alike; under Custom it returns the native value it was
    given, whatever the native scale; and it changes no global. *)
Theorem convertLinearUnits_auto_follows_program
    (w : world) (st : EMC_STAT) (u : float) :
  externs_ok X = true ->
  emcStatus w = Some st ->
  let auto := convertLinearUnits X u (set_linearUnitConversion LINEAR_UNITS_AUTO w) in
  let mm := (u / linearUnits (traj (motion st)))%float in
  (programUnits (task st) = CANON_UNITS_MM X ->
   returned auto = Some mm /\
   returned auto =
     returned (convertLinearUnits X u (set_linearUnitConversion LINEAR_UNITS_MM w))) /\
  (programUnits (task st) = CANON_UNITS_CM X ->
   returned auto = Some (mm * CM_PER_MM)%float /\
   returned auto =
     returned (convertLinearUnits X u (set_linearUnitConversion LINEAR_UNITS_CM w))) /\
  convertLinearUnits X u (set_linearUnitConversion LINEAR_UNITS_CUSTOM w) =
    Ret u (set_linearUnitConversion LINEAR_UNITS_CUSTOM w) /\
  (forall p, final (convertLinearUnits X u (set_linearUnitConversion p w)) =
             set_linearUnitConversion p w).
Proof.
  intros Hok Hst auto mm.
  unfold externs_ok in Hok.
  repeat (apply andb_prop in Hok; destruct Hok as [Hok ?]).
  repeat match goal with
         | H : negb _ = true |- _ => apply negb_true_iff in H
         end.
  unfold auto, convertLinearUnits, deref_emcStatus, bind, gets, ret; simpl.
  rewrite Hst; simpl.
  split; [|split; [|split]].
  - intros ->. rewrite Z.eqb_refl. auto.
  - intros Hcm. rewrite Hcm.
    assert (H3 : (CANON_UNITS_CM X =? CANON_UNITS_MM X) = false)
      by (rewrite Z.eqb_sym; assumption).
    assert (H4 : (CANON_UNITS_CM X =? CANON_UNITS_INCHES X) = false)
      by (rewrite Z.eqb_sym; assumption).
    rewrite H3, H4, Z.eqb_refl. auto.
  - reflexivity.
  - intros p. destruct p; simpl; auto.
    repeat (match goal with
            | |- context [if ?b then _ else _] => destruct b
            end; simpl); reflexivity.
Qed.

(** X14: [iniLoad] returns -1 and changes nothing when the ini file
    cannot be opened; otherwise it returns 0, sets the debug mask to the
    scanned value, or to 0 when there is none, and leaves the display
    policy either as it was or at AUTO, INCH, MM or CM: no ini file selects
    CUSTOM, and a value it does not know, lower-case names included,
    selects nothing. *)
Theorem iniLoad_policy (w : world) :
  (ini_open E = false -> iniLoad E w = Ret (-1) w) /\
  (ini_open E = true ->
   exists w',
     iniLoad E w = Ret 0 w' /\
     EMC_DEBUG w' = match ini_EMC_DEBUG E with Some d => d | None => 0 end /\
     (linearUnitConversion w' = linearUnitConversion w \/
      linearUnitConversion w' <> LINEAR_UNITS_CUSTOM) /\
     (linearUnitConversion w <> LINEAR_UNITS_CUSTOM ->
      linearUnitConversion w' <> LINEAR_UNITS_CUSTOM) /\
     (forall s, ini_LINEAR_UNITS E = Some s ->
        s <> "AUTO"%string -> s <> "INCH"%string ->
        s <> "MM"%string -> s <> "CM"%string ->
        linearUnitConversion w' = linearUnitConversion w)).
Proof.
  unfold iniLoad, bind, modify, ret. split; intros Hopen; rewrite Hopen; simpl;
    [reflexivity|].
  destruct (ini_EMC_DEBUG E) as [d|]; simpl;
    (destruct (ini_LINEAR_UNITS E) as [s|]; simpl;
     [ destruct (String.eqb s "AUTO") eqn:H1;
       [|destruct (String.eqb s "INCH") eqn:H2;
         [|destruct (String.eqb s "MM") eqn:H3;
           [|destruct (String.eqb s "CM") eqn:H4]]];
       simpl; eexists; (split; [reflexivity|]); simpl;
       (split; [reflexivity|]);
       (split; [first [right; discriminate | left; reflexivity]|]);
       (split; [first [intros _; discriminate | auto]|]);
       intros s' Hs' N1 N2 N3 N4; inversion Hs'; subst s';
       rewrite ?String.eqb_eq in *; try contradiction; reflexivity
     | eexists; (split; [reflexivity|]); simpl;
       (split; [reflexivity|]); (split; [left; reflexivity|]);
       (split; [auto|]); intros s' Hs'; discriminate ]).
Qed.

End MoreConfig.

Lemma convertLinearUnits_auto_follows_program_witness :
  returned (convertLinearUnits sample_externs 50.8%float
              (set_linearUnitConversion LINEAR_UNITS_AUTO
                 (connected_world (sample_stat 0 RCS_DONE 3))))
  = Some (50.8 / 25.4 * CM_PER_MM)%float.
Proof.
  refine (proj1 (proj1 (proj2
            (convertLinearUnits_auto_follows_program sample_externs
               (connected_world (sample_stat 0 RCS_DONE 3))
               (sample_stat 0 RCS_DONE 3) 50.8%float _ _)) _));
    reflexivity.
Defined.

(** ** Exporting the pins *)

(** X15: [halui_hal_init] returns 0 exactly when [hal_init], [hal_malloc]
    and the three pin exports all succeed, and then it has exported
    machine.is-on as an output and machine.on and machine.off as inputs, in
    that order, and not called [hal_exit]; when [hal_init] fails it calls
    nothing else; on every later failure it stops at the first failing
    call, calls [hal_exit] once with the component id, as its last call,
    and returns -1. *)
Theorem halui_hal_init_cleans_up (H : hal_env) :
  let r := fst (halui_hal_init H) in
  let s := snd (halui_hal_init H) in
  let cid := hal_init_ret H in
  (r = 0 \/ r = -1) /\
  comp_id s = cid /\
  (r = 0 <->
   0 <= cid /\ hal_malloc_ok H = true /\
   hal_pin_bit_new_ret H "halui.machine.is-on" = HAL_SUCCESS H /\
   hal_pin_bit_new_ret H "halui.machine.on" = HAL_SUCCESS H /\
   hal_pin_bit_new_ret H "halui.machine.off" = HAL_SUCCESS H) /\
  (r = 0 ->
   hal_calls s =
     [HalInit "halui"; HalMalloc;
      HalPinBitNew "halui.machine.is-on" HAL_WR cid;
      HalPinBitNew "halui.machine.on" HAL_RD cid;
      HalPinBitNew "halui.machine.off" HAL_RD cid]) /\
  (cid < 0 -> hal_calls s = [HalInit "halui"; HalPrintErr]) /\
  (r = -1 -> 0 <= cid ->
   filter is_hal_exit (hal_calls s) = [HalExit cid] /\
   last (hal_calls s) HalMalloc = HalExit cid /\
   (hal_malloc_ok H = false -> filter is_pin_new (hal_calls s) = [])).
Proof.
  intros r s cid. unfold r, s, cid, halui_hal_init.
  destruct (hal_init_ret H <? 0) eqn:Hc;
    [apply Z.ltb_lt in Hc | apply Z.ltb_ge in Hc].
  - simpl. repeat split; auto; try lia; try discriminate.
  - destruct (hal_malloc_ok H) eqn:Hm; simpl.
    + destruct (hal_pin_bit_new_ret H "halui.machine.is-on" =? HAL_SUCCESS H) eqn:H1;
        simpl;
        [destruct (hal_pin_bit_new_ret H "halui.machine.on" =? HAL_SUCCESS H) eqn:H2;
         simpl;
         [destruct (hal_pin_bit_new_ret H "halui.machine.off" =? HAL_SUCCESS H) eqn:H3;
          simpl|]|];
        rewrite ?Z.eqb_eq, ?Z.eqb_neq in *;
        repeat split; auto; try lia; try discriminate; try tauto;
        intros; try discriminate; tauto.
    + repeat split; auto; try lia; try discriminate.
Qed.

(** ** More on the status poll *)

Section MorePoll.

Variable X : externs.
Variable E : environment.

(** X16: a status poll returns 0 or -1 and never more. With [emcStatus]
    or [emcStatusBuffer] null it returns -1 without touching the channel
    or anything else. On a connected channel it consumes one answer of the
    transport; if the channel is not valid it returns -1 and the snapshot
    stays as it was; if it is valid, it returns 0 exactly when [peek()]
    gave 0 or EMC_STAT_TYPE and not -1. *)
Theorem updateStatus_outcome (w : world) :
  exists r,
    updateStatus X E w = Ret r (polled X E w) /\
    (r = 0 \/ r = -1) /\
    (emcStatus w = None \/ emcStatusBuffer w = None ->
     r = -1 /\ polled X E w = w) /\
    (forall st c,
       emcStatus w = Some st -> emcStatusBuffer w = Some c ->
       n_poll (polled X E w) = S (n_poll w) /\
       (so_valid (stat_poll E (n_poll w)) = false ->
        r = -1 /\ emcStatus (polled X E w) = Some st) /\
       (so_valid (stat_poll E (n_poll w)) = true ->
        emcStatus (polled X E w) = Some (so_data (stat_poll E (n_poll w))) /\
        (r = 0 <->
         so_peek (stat_poll E (n_poll w)) <> -1 /\
         (so_peek (stat_poll E (n_poll w)) = 0 \/
          so_peek (stat_poll E (n_poll w)) = EMC_STAT_TYPE X)))).
Proof.
  unfold polled, updateStatus.
  cbv beta iota delta [bind ret gets modify next_poll].
  destruct (emcStatus w) as [st0|] eqn:Hs;
    [destruct (emcStatusBuffer w) as [c0|] eqn:Hb|]; simpl.
  - destruct (so_valid (stat_poll E (n_poll w))) eqn:Hv; simpl.
    + destruct (so_peek (stat_poll E (n_poll w)) =? -1) eqn:H1; simpl.
      * apply Z.eqb_eq in H1. eexists. split; [reflexivity|].
        split; [auto|]. split; [intros [?|?]; discriminate|].
        intros st c Est Ec. repeat split; auto; try discriminate; tauto.
      * apply Z.eqb_neq in H1.
        destruct (so_peek (stat_poll E (n_poll w)) =? 0) eqn:H2;
          destruct (so_peek (stat_poll E (n_poll w)) =? EMC_STAT_TYPE X) eqn:H3;
          simpl; rewrite ?Z.eqb_eq, ?Z.eqb_neq in *;
          (eexists; split; [reflexivity|]);
          (split; [auto|]); (split; [intros [?|?]; discriminate|]);
          intros st c Est Ec; repeat split; auto; try discriminate; try tauto;
          intros; try discriminate; tauto.
    + eexists. split; [reflexivity|]. split; [auto|].
      split; [intros [?|?]; discriminate|].
      intros st c Est Ec. inversion Est; subst.
      repeat split; auto; discriminate.
  - eexists. split; [reflexivity|]. split; [auto|]. split; [auto|].
    intros st c _ Hc. discriminate.
  - eexists. split; [reflexivity|]. split; [auto|]. split; [auto|].
    intros st c Hc. discriminate.
Qed.

End MorePoll.

Lemma halui_hal_init_refused_pin :
  fst (halui_hal_init hal_refuses_on) = -1 /\
  hal_calls (snd (halui_hal_init hal_refuses_on)) =
    [HalInit "halui"; HalMalloc;
     HalPinBitNew "halui.machine.is-on" HAL_WR 12;
     HalPinBitNew "halui.machine.on" HAL_RD 12;
     HalPrintErr; HalExit 12].
Proof. split; reflexivity. Qed.
